(** * vscode-tracker: the state-change detection and reporting pipeline

    A shallow embedding of the two revisions of the extension that the
    repository holds, [src/unnamed/part_000] (the revision with the GitHub
    repository resolver) and [src/extension.js] (the revision without it),
    and the properties of the pipeline proved over it.

    Conventions of the embedding.
    - A JavaScript string is the list of its UTF-16 code units ([jsstring]);
      [str] turns an ASCII literal into one.
    - A JavaScript number that the code only uses as an integer (line and
      column numbers, line counts, exit codes) is a [Z]; the arithmetic of
      [getViewRange] is exact on them.
    - A value that is a string or [undefined] (the name of the workspace,
      the result of the resolver) is an [option]; [None] is [undefined].
    - [Set<string>] is a [gset], [Map<string,string>] a [gmap].
    - An [async] function is a tree of synchronous segments ([task]): it
      reads and writes the module-level variables ([global]) and suspends at
      every [await] of an external call; the answer of the call resumes it. *)

From Stdlib Require Import ZArith NArith Lia List Bool.
From Stdlib Require Import String Ascii.
From stdpp Require Import base decidable option list gmap.

Local Open Scope Z_scope.

(** ** JavaScript strings *)

Abbreviation jsstring := (list N).

Fixpoint str (s : string) : jsstring :=
  match s with
  | EmptyString => []
  | String a s' => N_of_ascii a :: str s'
  end.

(** [String.prototype.startsWith(pat)]. *)
Fixpoint startsWith (s pat : jsstring) : bool :=
  match pat, s with
  | [], _ => true
  | _ :: _, [] => false
  | p :: pat', c :: s' => N.eqb c p && startsWith s' pat'
  end.

(** [String.prototype.replace(pat, rep)] with a string pattern: only the
    first occurrence of [pat] is replaced.  The replacement strings of this
    program hold no [$], so no replacement pattern is expanded. *)
Fixpoint replace (s pat rep : jsstring) : jsstring :=
  if startsWith s pat then rep ++ drop (length pat) s
  else match s with
       | [] => []
       | c :: s' => c :: replace s' pat rep
       end.

(** White space and line terminators of ECMAScript, as code units. *)
Definition isWhiteSpace (c : N) : bool :=
  existsb (N.eqb c)
    [9; 10; 11; 12; 13; 32; 160; 5760; 8192; 8193; 8194; 8195; 8196; 8197;
     8198; 8199; 8200; 8201; 8202; 8232; 8233; 8239; 8287; 12288; 65279]%N.

Fixpoint trimStart (s : jsstring) : jsstring :=
  match s with
  | [] => []
  | c :: s' => if isWhiteSpace c then trimStart s' else s
  end.

(** [String.prototype.trim()]. *)
Definition trim (s : jsstring) : jsstring :=
  rev (trimStart (rev (trimStart s))).

(** The line feed, the separator of [split('\n')]. *)
Definition LF : N := 10%N.

Fixpoint split_from (s : jsstring) : jsstring * list jsstring :=
  match s with
  | [] => ([], [])
  | c :: s' =>
      let '(piece, pieces) := split_from s' in
      if N.eqb c LF then ([], piece :: pieces) else (c :: piece, pieces)
  end.

(** [String.prototype.split('\n')]: the pieces between the line feeds; the
    empty string gives one empty piece. *)
Definition split (s : jsstring) : list jsstring :=
  let '(piece, pieces) := split_from s in piece :: pieces.

(** ** JavaScript values and objects *)

Inductive jsval : Type :=
| VUndefined
| VNull
| VBool (b : bool)
| VNum (z : Z)
| VStr (s : jsstring).

(** [a === b] on the values above (the numbers are integers, never NaN). *)
Definition strict_eq (a b : jsval) : bool :=
  match a, b with
  | VUndefined, VUndefined => true
  | VNull, VNull => true
  | VBool x, VBool y => Bool.eqb x y
  | VNum x, VNum y => Z.eqb x y
  | VStr x, VStr y => bool_decide (x = y)
  | _, _ => false
  end.

(** A value of type [string | undefined]: [None] is [undefined]. *)
Definition optional_string (v : option jsstring) : jsval :=
  match v with
  | Some s => VStr s
  | None => VUndefined
  end.

(** A plain object: its own enumerable properties in creation order. *)
Abbreviation jsobj := (list (string * jsval)).

(** [Object.keys(o)]. *)
Definition Object_keys (o : jsobj) : list string := map fst o.

(** [o[key]]: the value of the property, [undefined] when there is none. *)
Fixpoint get (o : jsobj) (key : string) : jsval :=
  match o with
  | [] => VUndefined
  | (k, v) :: o' => if String.eqb k key then v else get o' key
  end.

(** ** The State of activity *)

(** The field [workspace] holds [vscode.workspace.name], which is
    [undefined] as long as no folder is open. *)
Record State : Type := mkState {
  workspace : option jsstring;
  fileName : jsstring;
  language : jsstring;
  row : Z;
  col : Z;
  viewChunk : jsstring
}.

(** The object a State literal creates: six properties in this order (a
    property whose value is [undefined] is a property all the same). *)
Definition State_obj (s : State) : jsobj :=
  [ ("workspace"%string, optional_string (workspace s));
    ("fileName"%string, VStr (fileName s));
    ("language"%string, VStr (language s));
    ("row"%string, VNum (row s));
    ("col"%string, VNum (col s));
    ("viewChunk"%string, VStr (viewChunk s)) ].

(** [shallowEqual(objA, objB)] (the same text in both revisions). *)
Definition shallowEqual (objA objB : jsobj) : bool :=
  let keysA := Object_keys objA in
  let keysB := Object_keys objB in
  if negb (Nat.eqb (length keysA) (length keysB)) then false
  else forallb (fun key => strict_eq (get objA key) (get objB key)) keysA.

(** The change detector of the poller: the gate of [pollState] lets a tick
    through when [shallowEqual(prevState, curState)] is false. *)
Definition changed (prev cur : State) : bool :=
  negb (shallowEqual (State_obj prev) (State_obj cur)).

(** ** Positions and ranges of the editor *)

Record Position : Type := mkPosition { line : Z; character : Z }.

(** [new vscode.Position(line, character)]: throws on a negative argument. *)
Definition Position_new (l c : Z) : option Position :=
  if (l <? 0) || (c <? 0) then None else Some (mkPosition l c).

Definition Position_isBefore (a b : Position) : bool :=
  (line a <? line b) || ((line a =? line b) && (character a <? character b)).

Definition Position_isBeforeOrEqual (a b : Position) : bool :=
  (line a <? line b) || ((line a =? line b) && (character a <=? character b)).

Record Range : Type := mkRange { range_start : Position; range_end : Position }.

(** [new vscode.Range(start, end)]: the two positions are swapped when
    [start] is after [end]. *)
Definition Range_new (a b : Position) : Range :=
  if Position_isBefore b a then mkRange b a else mkRange a b.

(** [getViewRange(selection, lineCount)] (the same text in both revisions);
    [activeLine] is [selection.active.line].  [None] is the exception of a
    [Position] constructor. *)
Definition getViewRange (activeLine lineCount : Z) : option Range :=
  let range := 5 in
  let totalRange := range * 2 + 1 in
  if lineCount <? totalRange then
    a ← Position_new 0 0;
    b ← Position_new lineCount 0;
    Some (Range_new a b)
  else
    let startLine := Z.max 0 (activeLine - range) in
    if lineCount - startLine >=? totalRange then
      a ← Position_new startLine 0;
      b ← Position_new (startLine + totalRange - 1) 0;
      Some (Range_new a b)
    else
      let startLine := startLine - Z.abs (lineCount - startLine - totalRange) in
      a ← Position_new startLine 0;
      b ← Position_new (startLine + totalRange - 1) 0;
      Some (Range_new a b).

(** Line [i] lies in the range with its line break: from its first column
    up to the first column of the next line. *)
Definition Range_containsLine (r : Range) (i : Z) : bool :=
  Position_isBeforeOrEqual (range_start r) (mkPosition i 0)
  && Position_isBeforeOrEqual (mkPosition (i + 1) 0) (range_end r).

(** [{...}] literals: setting a property keeps its place when the object
    has it already and appends it otherwise; the spread [...src] sets the
    properties of [src] in their order. *)
Fixpoint obj_set (o : jsobj) (key : string) (v : jsval) : jsobj :=
  match o with
  | [] => [(key, v)]
  | (k, w) :: o' =>
      if String.eqb k key then (k, v) :: o' else (k, w) :: obj_set o' key v
  end.

Definition obj_spread (o src : jsobj) : jsobj :=
  fold_left (fun acc kv => obj_set acc (fst kv) (snd kv)) src o.

(** ** JSON *)

(** The values [JSON.stringify] writes for the properties of this program. *)
Inductive json_value : Type :=
| JNull
| JBool (b : bool)
| JNumber (z : Z)
| JString (s : jsstring).

(** The text [JSON.stringify] produces for a plain object, as its syntax
    tree: the members of the JSON object, in order. *)
Abbreviation json_object := (list (string * json_value)).

(** The serialisation of a property value; a property whose value is
    [undefined] is left out of the object. *)
Definition JSON_value (v : jsval) : option json_value :=
  match v with
  | VUndefined => None
  | VNull => Some JNull
  | VBool b => Some (JBool b)
  | VNum z => Some (JNumber z)
  | VStr s => Some (JString s)
  end.

(** [JSON.stringify(o)] for a plain object of primitive values. *)
Fixpoint JSON_stringify (o : jsobj) : json_object :=
  match o with
  | [] => []
  | (k, v) :: o' =>
      match JSON_value v with
      | Some j => (k, j) :: JSON_stringify o'
      | None => JSON_stringify o'
      end
  end.


(** The value of a key of a JSON object. *)
Fixpoint json_member (j : json_object) (key : string) : option json_value :=
  match j with
  | [] => None
  | (k, v) :: j' => if String.eqb k key then Some v else json_member j' key
  end.

(** ** The module-level variables *)

Record global : Type := mkGlobal {
  ignoredFiles : gset jsstring;
  (** the keys are the values of [vscode.workspace.name] *)
  knownGitHubs : gmap (option jsstring) jsstring;
  prevState : State;
  (** the variable [updateStateAbortController]: [None] is [undefined],
      [Some i] the controller at index [i] of [controllers] *)
  updateStateAbortController : option nat;
  (** every [AbortController] created so far, with its [aborted] flag *)
  controllers : list bool;
  (** the lines appended to the output channel, oldest first *)
  chan : list jsstring
}.

Definition set_ignoredFiles (f : gset jsstring → gset jsstring) (g : global) : global :=
  mkGlobal (f (ignoredFiles g)) (knownGitHubs g) (prevState g)
           (updateStateAbortController g) (controllers g) (chan g).

Definition set_knownGitHubs
    (f : gmap (option jsstring) jsstring → gmap (option jsstring) jsstring)
    (g : global) : global :=
  mkGlobal (ignoredFiles g) (f (knownGitHubs g)) (prevState g)
           (updateStateAbortController g) (controllers g) (chan g).

Definition set_prevState (s : State) (g : global) : global :=
  mkGlobal (ignoredFiles g) (knownGitHubs g) s
           (updateStateAbortController g) (controllers g) (chan g).

Definition set_chan (f : list jsstring → list jsstring) (g : global) : global :=
  mkGlobal (ignoredFiles g) (knownGitHubs g) (prevState g)
           (updateStateAbortController g) (controllers g) (f (chan g)).

(** [if (c !== undefined) c.abort()] on the variable. *)
Definition abort_current (g : global) : global :=
  match updateStateAbortController g with
  | Some i =>
      mkGlobal (ignoredFiles g) (knownGitHubs g) (prevState g)
               (Some i) (<[i:=true]> (controllers g)) (chan g)
  | None => g
  end.

(** [updateStateAbortController = new AbortController()]. *)
Definition install_controller (g : global) : global :=
  mkGlobal (ignoredFiles g) (knownGitHubs g) (prevState g)
           (Some (length (controllers g))) (controllers g ++ [false]) (chan g).

(** The variables when the module is loaded. *)
Definition initial : global :=
  mkGlobal ∅ ∅ (mkState (Some []) [] [] 0 0 []) None [] [].

(** ** External calls and asynchronous functions *)

(** A rejected [exec]: the [code] property of the error and its text. *)
Record exec_error : Type := mkExecError { code : jsval; error_text : jsstring }.

Inductive exec_result : Type :=
| ExecOk (stdout : jsstring)        (* the command exited with code 0 *)
| ExecErr (err : exec_error).

Record request : Type := mkRequest {
  req_url : jsstring;
  req_method : jsstring;
  req_authorization : jsstring;
  req_contentType : jsstring;
  req_body : json_object;
  req_signal : nat
}.

Inductive fetch_result : Type :=
| FetchResponse (ok : bool)
| FetchRejected (text : jsstring).

Inductive text_result : Type :=
| TextOk (body : jsstring)
| TextRejected (text : jsstring).

(** Exceptions that leave [pollState] (its promise is rejected). *)
Inductive js_error : Type := TypeError | IllegalArgument.

(** An asynchronous function: it returns, throws, reads or writes the
    module-level variables, or awaits an external call. *)
Inductive task (A : Type) : Type :=
| Ret (a : A)
| Throw (e : js_error)
| Get (k : global → task A)
| Put (g : global) (k : task A)
| Exec (cmd cwd : jsstring) (signal : nat) (k : exec_result → task A)
| Fetch (req : request) (k : fetch_result → task A)
| RespText (k : text_result → task A).

Arguments Ret {A} a.
Arguments Throw {A} e.
Arguments Get {A} k.
Arguments Put {A} g k.
Arguments Exec {A} cmd cwd signal k.
Arguments Fetch {A} req k.
Arguments RespText {A} k.

Fixpoint task_bind {A B : Type} (f : A → task B) (t : task A) : task B :=
  match t with
  | Ret a => f a
  | Throw e => Throw e
  | Get k => Get (fun g => task_bind f (k g))
  | Put g k => Put g (task_bind f k)
  | Exec cmd cwd signal k => Exec cmd cwd signal (fun r => task_bind f (k r))
  | Fetch req k => Fetch req (fun r => task_bind f (k r))
  | RespText k => RespText (fun r => task_bind f (k r))
  end.

#[global] Instance task_mbind : MBind task := @task_bind.
#[global] Instance task_mret : MRet task := @Ret.

Definition gets {A : Type} (f : global → A) : task A := Get (fun g => Ret (f g)).
Definition modify (f : global → global) : task unit := Get (fun g => Put (f g) (Ret tt)).
Definition exec (cmd cwd : jsstring) (signal : nat) : task exec_result :=
  Exec cmd cwd signal Ret.
Definition fetch (req : request) : task fetch_result := Fetch req Ret.
Definition resp_text : task text_result := RespText Ret.

(** [chan.appendLine(text)]. *)
Definition appendLine (text : jsstring) : task unit :=
  modify (set_chan (fun lines => lines ++ [text])).

(** [updateStateAbortController.signal]; reading it off [undefined] throws. *)
Definition current_signal : task nat :=
  c ← gets updateStateAbortController;
  match c with
  | Some i => Ret i
  | None => Throw TypeError
  end.

(** The state of an asynchronous function at the end of a synchronous
    segment. *)
Inductive status (A : Type) : Type :=
| Finished (a : A)
| Failed (e : js_error)
| AwaitExec (cmd cwd : jsstring) (signal : nat) (k : exec_result → task A)
| AwaitFetch (req : request) (k : fetch_result → task A)
| AwaitText (k : text_result → task A).

Arguments Finished {A} a.
Arguments Failed {A} e.
Arguments AwaitExec {A} cmd cwd signal k.
Arguments AwaitFetch {A} req k.
Arguments AwaitText {A} k.

(** One synchronous segment: the function runs, without interruption, up to
    its next external call or its end. *)
Fixpoint run_sync {A : Type} (t : task A) (g : global) : global * status A :=
  match t with
  | Ret a => (g, Finished a)
  | Throw e => (g, Failed e)
  | Get k => run_sync (k g) g
  | Put g' k => run_sync k g'
  | Exec cmd cwd signal k => (g, AwaitExec cmd cwd signal k)
  | Fetch req k => (g, AwaitFetch req k)
  | RespText k => (g, AwaitText k)
  end.

(** The external calls a function makes. *)
Inductive call : Type :=
| CallExec (cmd cwd : jsstring) (signal : nat)
| CallFetch (req : request)
| CallText.

(** The outside world, answering every external call. *)
Record world : Type := mkWorld {
  on_exec : jsstring → jsstring → nat → exec_result;
  on_fetch : request → fetch_result;
  on_text : text_result
}.

(** A function run to its end on its own, no other tick in between: the
    variables at the end, what it returned or threw, and the external calls
    it made, in order. *)
Fixpoint run {A : Type} (w : world) (t : task A) (g : global)
  : global * (A + js_error) * list call :=
  match t with
  | Ret a => (g, inl a, [])
  | Throw e => (g, inr e, [])
  | Get k => run w (k g) g
  | Put g' k => run w k g'
  | Exec cmd cwd signal k =>
      let '(g', r, calls) := run w (k (on_exec w cmd cwd signal)) g in
      (g', r, CallExec cmd cwd signal :: calls)
  | Fetch req k =>
      let '(g', r, calls) := run w (k (on_fetch w req)) g in
      (g', r, CallFetch req :: calls)
  | RespText k =>
      let '(g', r, calls) := run w (k (on_text w)) g in
      (g', r, CallText :: calls)
  end.

(** ** What the editor shows to a tick *)

Record TextEditor : Type := mkTextEditor {
  doc_fileName : jsstring;             (* document.fileName *)
  doc_languageId : jsstring;           (* document.languageId *)
  doc_lineCount : Z;                   (* document.lineCount *)
  doc_getText : Range → jsstring;      (* document.getText(range) *)
  sel_active : Position                (* selection.active *)
}.

(** The API as a tick sees it; the name of the workspace, [undefined]
    ([None]) when no folder is open, is taken to stay the same from the
    start of a tick to its end. *)
Record vscode : Type := mkVscode {
  activeTextEditor : option TextEditor;  (* vscode.window.activeTextEditor *)
  workspace_name : option jsstring       (* vscode.workspace.name *)
}.

(** The snapshot a tick takes, the first statements of [pollState] in both
    revisions: [doc], [sel], [view] and the literal [curState].  Without an
    active editor the property access throws. *)
Definition capture (vs : vscode) : State + js_error :=
  match activeTextEditor vs with
  | None => inr TypeError
  | Some ed =>
      match getViewRange (line (sel_active ed)) (doc_lineCount ed) with
      | None => inr IllegalArgument
      | Some viewRange =>
          inl (mkState (workspace_name vs) (doc_fileName ed) (doc_languageId ed)
                       (line (sel_active ed)) (character (sel_active ed))
                       (doc_getText ed viewRange))
      end
  end.

(** [isIgnored] after the [try]/[catch] around the ignore check: left
    [undefined] when [exec] resolves, set from [err.code] when it rejects. *)
Definition isIgnored_after (r : exec_result) : jsval :=
  match r with
  | ExecOk _ => VUndefined
  | ExecErr err =>
      VBool (strict_eq (code err) VUndefined || negb (strict_eq (code err) (VNum 1)))
  end.

(** [String(new Error(message))]. *)
Definition Error_toString (message : jsstring) : jsstring :=
  match message with
  | [] => str "Error"
  | _ => str "Error: " ++ message
  end.

(** The text of the [TypeError] of [undefined.signal]. *)
Definition signal_TypeError : jsstring :=
  str "TypeError: Cannot read properties of undefined (reading 'signal')".

(** The part of [pollState] after the [fetch] call is built, the same in
    both revisions: the request is sent with the signal of the controller
    the variable holds at that moment, and every failure is logged. *)
Definition send (target token : jsstring) (body : json_object) : task unit :=
  c ← gets updateStateAbortController;
  match c with
  | None => appendLine (str "Something went wrong: " ++ signal_TypeError)
  | Some signal =>
      resp ← fetch (mkRequest target (str "POST") (str "Bearer " ++ token)
                              (str "application/json") body signal);
      match resp with
      | FetchRejected text => appendLine (str "Something went wrong: " ++ text)
      | FetchResponse ok =>
          if negb ok then
            t ← resp_text;
            match t with
            | TextOk message =>
                appendLine (str "Something went wrong: " ++ Error_toString message)
            | TextRejected text => appendLine (str "Something went wrong: " ++ text)
            end
          else Ret tt
      end
  end.

(** ** The revision with the repository resolver ([src/unnamed/part_000]) *)

Module Part000.
Section WithPath.

(** [path.dirname] of Node. *)
Variable dirname : jsstring → jsstring.

(** The [for] loop of [getGitRemoteURL] over [urls]. *)
Fixpoint getGitRemoteURL_urls (urls : list jsstring) : option jsstring :=
  match urls with
  | [] => None
  | url :: urls' =>
      if startsWith url (str "git@github.com") then
        let url := replace url (str "git@github.com:") (str "https://github.com/") in
        let url := replace url (str ".git") [] in
        Some url
      else getGitRemoteURL_urls urls'
  end.

(** [getGitRemoteURL(dir, remote, signal)]; [None] is [undefined]. *)
Definition getGitRemoteURL (dir remote : jsstring) (signal : nat)
  : task (option jsstring) :=
  let cmd := str "git remote get-url --all " ++ remote in
  r ← exec cmd dir signal;
  match r with
  | ExecOk stdout =>
      let urls := split (trim stdout) in
      Ret (getGitRemoteURL_urls urls)
  | ExecErr err =>
      appendLine (str "Get GitHub UR for " ++ remote ++ str " in " ++ dir
                    ++ str ": " ++ error_text err);;
      Ret None
  end.

(** [getGitRemotes(dir, signal)]. *)
Definition getGitRemotes (dir : jsstring) (signal : nat) : task (list jsstring) :=
  let cmd := str "git remote" in
  r ← exec cmd dir signal;
  match r with
  | ExecOk stdout => Ret (split (trim stdout))
  | ExecErr err =>
      appendLine (str "Get Git remotes: " ++ error_text err);;
      Ret []
  end.

(** The [for] loop of [findGitHubURL] over [remotes]. *)
Fixpoint findGitHubURL_remotes (worksapce : option jsstring) (dir : jsstring)
    (signal : nat) (remotes : list jsstring) : task (option jsstring) :=
  match remotes with
  | [] => Ret None
  | remote :: remotes' =>
      githubUrl ← getGitRemoteURL dir remote signal;
      match githubUrl with
      | Some url =>
          modify (set_knownGitHubs (fun known => <[worksapce:=url]> known));;
          appendLine url;;
          Ret (Some url)
      | None => findGitHubURL_remotes worksapce dir signal remotes'
      end
  end.

(** [findGitHubURL(worksapce, activeFilename, signal)]; [None] is
    [undefined]. *)
Definition findGitHubURL (worksapce : option jsstring) (activeFilename : jsstring)
    (signal : nat) : task (option jsstring) :=
  known ← gets knownGitHubs;
  match known !! worksapce with
  | Some url =>
      appendLine (url ++ str " (looked up from cache)");;
      Ret (Some url)
  | None =>
      let dir := dirname activeFilename in
      remotes ← getGitRemotes dir signal;
      findGitHubURL_remotes worksapce dir signal remotes
  end.

(** The value of the variable [repository] in the object literal. *)
Definition repository_value (repository : option jsstring) : jsval :=
  match repository with
  | Some url => VStr url
  | None => VUndefined
  end.

(** [pollState] from the call of [findGitHubURL] to its end. *)
Definition pollState_report (target token : jsstring) (vs : vscode)
    (ed : TextEditor) (curState : State) : task unit :=
  signal ← current_signal;
  repository ← findGitHubURL (workspace_name vs) (doc_fileName ed) signal;
  modify (set_prevState curState);;
  appendLine (str "Updating state");;
  send target token
    (JSON_stringify
       (obj_spread [("repository"%string, repository_value repository)]
                   (State_obj curState))).

(** [pollState(target, token)], one tick of the poller. *)
Definition pollState (target token : jsstring) (vs : vscode) : task unit :=
  match activeTextEditor vs with
  | None => Throw TypeError
  | Some ed =>
  match getViewRange (line (sel_active ed)) (doc_lineCount ed) with
  | None => Throw IllegalArgument
  | Some viewRange =>
      let view := doc_getText ed viewRange in
      let curState :=
        mkState (workspace_name vs) (doc_fileName ed) (doc_languageId ed)
                (line (sel_active ed)) (character (sel_active ed)) view in
      prev ← gets prevState;
      if shallowEqual (State_obj prev) (State_obj curState) then Ret tt
      else
        appendLine (str "not equal");;
        ignored ← gets ignoredFiles;
        if bool_decide (doc_fileName ed ∈ ignored) then
          appendLine (doc_fileName ed ++ str " is ignored (looked up from cache)")
        else
          modify abort_current;;
          modify install_controller;;
          prev ← gets prevState;
          let didChangeFile :=
            negb (strict_eq (VStr (fileName prev)) (VStr (fileName curState))) in
          if didChangeFile then
            let dir := dirname (doc_fileName ed) in
            let cmd := str "git check-ignore " ++ doc_fileName ed ++ str " -q" in
            signal ← current_signal;
            r ← exec cmd dir signal;
            let isIgnored := isIgnored_after r in
            if strict_eq isIgnored VUndefined || strict_eq isIgnored (VBool true) then
              appendLine (doc_fileName ed ++ str " is ignored");;
              modify (set_ignoredFiles (fun files => {[doc_fileName ed]} ∪ files))
            else pollState_report target token vs ed curState
          else pollState_report target token vs ed curState
  end
  end.

End WithPath.
End Part000.

(** ** The revision without the resolver ([src/extension.js]) *)

Module ExtensionJs.
Section WithPath.

Variable dirname : jsstring → jsstring.

(** [pollState(target, token)], one tick of the poller. *)
Definition pollState (target token : jsstring) (vs : vscode) : task unit :=
  match activeTextEditor vs with
  | None => Throw TypeError
  | Some ed =>
  match getViewRange (line (sel_active ed)) (doc_lineCount ed) with
  | None => Throw IllegalArgument
  | Some viewRange =>
      let view := doc_getText ed viewRange in
      let curState :=
        mkState (workspace_name vs) (doc_fileName ed) (doc_languageId ed)
                (line (sel_active ed)) (character (sel_active ed)) view in
      prev ← gets prevState;
      if shallowEqual (State_obj prev) (State_obj curState) then Ret tt
      else
        prev ← gets prevState;
        let didChangeFile :=
          negb (strict_eq (VStr (fileName prev)) (VStr (fileName curState))) in
        modify (set_prevState curState);;
        appendLine (str "Updating state");;
        modify abort_current;;
        modify install_controller;;
        ignored ← gets ignoredFiles;
        if bool_decide (doc_fileName ed ∈ ignored) then
          appendLine (doc_fileName ed ++ str " is ignored (looked up from cache)")
        else
          let report := send target token (JSON_stringify (State_obj curState)) in
          if didChangeFile then
            let dir := dirname (doc_fileName ed) in
            let cmd := str "git check-ignore " ++ doc_fileName ed ++ str " -q" in
            signal ← current_signal;
            r ← exec cmd dir signal;
            let isIgnored := isIgnored_after r in
            if strict_eq isIgnored VUndefined || strict_eq isIgnored (VBool true) then
              appendLine (doc_fileName ed ++ str " is ignored");;
              modify (set_ignoredFiles (fun files => {[doc_fileName ed]} ∪ files))
            else report
          else report
  end
  end.

End WithPath.
End ExtensionJs.

(** ** A tick among the other ticks *)

(** [sends t g req g']: the function [t], started on the variables [g],
    makes the [fetch] call [req], and [g'] are the variables at the moment
    of the call, before any answer to it.  Between two segments of [t] the
    other ticks run, so each segment after an [await] starts on variables
    that are not related to the ones the segment before left. *)
Inductive sends {A : Type} : task A → global → request → global → Prop :=
| sends_now t g g' req k :
    run_sync t g = (g', AwaitFetch req k) →
    sends t g req g'
| sends_after_exec t g g1 cmd cwd signal k r g2 req g' :
    run_sync t g = (g1, AwaitExec cmd cwd signal k) →
    sends (k r) g2 req g' →
    sends t g req g'
| sends_after_fetch t g g1 req1 k r g2 req g' :
    run_sync t g = (g1, AwaitFetch req1 k) →
    sends (k r) g2 req g' →
    sends t g req g'
| sends_after_text t g g1 k r g2 req g' :
    run_sync t g = (g1, AwaitText k) →
    sends (k r) g2 req g' →
    sends t g req g'.

(** [returns t g a g']: the function [t], started on the variables [g],
    returns [a], and [g'] are the variables at that moment; the other ticks
    run between its segments, as for [sends]. *)
Inductive returns {A : Type} : task A → global → A → global → Prop :=
| returns_now t g a g' :
    run_sync t g = (g', Finished a) →
    returns t g a g'
| returns_after_exec t g g1 cmd cwd signal k r g2 a g' :
    run_sync t g = (g1, AwaitExec cmd cwd signal k) →
    returns (k r) g2 a g' →
    returns t g a g'
| returns_after_fetch t g g1 req1 k r g2 a g' :
    run_sync t g = (g1, AwaitFetch req1 k) →
    returns (k r) g2 a g' →
    returns t g a g'
| returns_after_text t g g1 k r g2 a g' :
    run_sync t g = (g1, AwaitText k) →
    returns (k r) g2 a g' →
    returns t g a g'.

(** A function with no [fetch] call in it. *)
Fixpoint no_fetch {A : Type} (t : task A) : Prop :=
  match t with
  | Ret _ | Throw _ => True
  | Get k => ∀ g, no_fetch (k g)
  | Put _ k => no_fetch k
  | Exec _ _ _ k => ∀ r, no_fetch (k r)
  | Fetch _ _ => False
  | RespText k => ∀ r, no_fetch (k r)
  end.

(** ** Vocabulary of the statements *)

(** The first line of the window of a document of at least eleven lines:
    five lines above the cursor, not above line 0 and not so low that the
    window would pass the last line. *)
Definition viewStart (activeLine lineCount : Z) : Z :=
  Z.min (Z.max 0 (activeLine - 5)) (lineCount - 11).

(** The number of fields in which two States differ. *)
Definition differing_fields (s1 s2 : State) : nat :=
  length (filter (fun same : bool => same = false)
    [ bool_decide (workspace s1 = workspace s2);
      bool_decide (fileName s1 = fileName s2);
      bool_decide (language s1 = language s2);
      bool_decide (row s1 = row s2);
      bool_decide (col s1 = col s2);
      bool_decide (viewChunk s1 = viewChunk s2) ]).

(** The member of a JSON object for a property of type
    [string | undefined]: none when the value is [undefined]. *)
Definition optional_member (key : string) (v : option jsstring) : json_object :=
  match v with
  | Some s => [(key, JString s)]
  | None => []
  end.

(** The world in which every command prints [stdout] and exits with 0. *)
Definition printing (stdout : jsstring) : world :=
  mkWorld (fun _ _ _ => ExecOk stdout) (fun _ => FetchResponse true) (TextOk []).

(** Turns the comparisons of positions into comparisons of integers. *)
Ltac lines_in_range :=
  unfold Range_containsLine, Position_isBeforeOrEqual, Position_isBefore;
  cbn [line character range_start range_end];
  rewrite ?andb_true_iff, ?orb_true_iff, ?andb_true_iff,
          ?Z.ltb_lt, ?Z.eqb_eq, ?Z.leb_le.

(** The variables a resolution leaves alone. *)
Definition same_session (g g1 : global) : Prop :=
  ignoredFiles g1 = ignoredFiles g
  ∧ prevState g1 = prevState g
  ∧ updateStateAbortController g1 = updateStateAbortController g
  ∧ controllers g1 = controllers g.

(** The names [getGitRemotes] returns in the world [w]. *)
Definition remote_names (w : world) (dir : jsstring) (signal : nat) : list jsstring :=
  match on_exec w (str "git remote") dir signal with
  | ExecOk stdout => split (trim stdout)
  | ExecErr _ => []
  end.

(** The command of [getGitRemoteURL] and its call. *)
Definition get_url_cmd (remote : jsstring) : jsstring :=
  str "git remote get-url --all " ++ remote.

Definition get_url_call (dir : jsstring) (signal : nat) (remote : jsstring) : call :=
  CallExec (get_url_cmd remote) dir signal.

(** The URLs the lookup of [remote] prints in the world [w]. *)
Definition remote_urls (w : world) (dir : jsstring) (signal : nat)
    (remote : jsstring) : list jsstring :=
  match on_exec w (get_url_cmd remote) dir signal with
  | ExecOk stdout => split (trim stdout)
  | ExecErr _ => []
  end.

(** No URL of the remotes in [remotes] has the GitHub SSH shape. *)
Definition no_github_url (w : world) (dir : jsstring) (signal : nat)
    (remotes : list jsstring) : bool :=
  forallb (fun remote =>
             forallb (fun url => negb (startsWith url (str "git@github.com")))
                     (remote_urls w dir signal remote))
          remotes.

(** The command of the ignore check. *)
Definition check_ignore_cmd (file : jsstring) : jsstring :=
  str "git check-ignore " ++ file ++ str " -q".

(** The variables after a tick of [part_000] has passed its two gates: the
    line of the first gate is logged, the controller of the variable is
    aborted and a new one is installed. *)
Definition passed_gates (g : global) : global :=
  install_controller
    (abort_current (set_chan (fun lines => lines ++ [str "not equal"]) g)).

(** The variables after a tick of [extension.js] has passed its first gate:
    the snapshot is stored, its line is logged, the controller of the
    variable is aborted and a new one is installed. *)
Definition accepted (cur : State) (g : global) : global :=
  install_controller
    (abort_current
       (set_chan (fun lines => lines ++ [str "Updating state"])
                 (set_prevState cur g))).

(** A continuation of a tick that treats [file] as ignored: on any
    variables it ends in its first segment, with no further call, and it
    has added [file] to the set of ignored files. *)
Definition suppressed_as_ignored (file : jsstring) (t : task unit) : Prop :=
  ∀ g, ∃ g', run_sync t g = (g', Finished tt)
             ∧ ignoredFiles g' = {[file]} ∪ ignoredFiles g.

(** A continuation of a tick that treats the file as not ignored: run to
    its end in any world, on variables that hold a controller, it leaves
    the set of ignored files as it was and makes a [fetch] call. *)
Definition goes_on_to_report (t : task unit) : Prop :=
  ∀ w g, is_Some (updateStateAbortController g) →
    ∃ g' calls req, run w t g = (g', inl tt, calls)
                    ∧ ignoredFiles g' = ignoredFiles g
                    ∧ CallFetch req ∈ calls.

(** The policy of the ignore check of a tick function: when the file of
    the snapshot differs from the file of the last state and is not in the
    set of ignored files, the first segment of the tick ends on the call of
    the ignore check, and the answer to the call is read as follows. *)
Definition ignore_check_policy (dirname : jsstring → jsstring)
    (tick : vscode → task unit) : Prop :=
  ∀ vs cur g,
    capture vs = inl cur →
    fileName (prevState g) ≠ fileName cur →
    fileName cur ∉ ignoredFiles g →
    ∃ g1 signal k,
      run_sync (tick vs) g
        = (g1, AwaitExec (check_ignore_cmd (fileName cur)) (dirname (fileName cur))
                         signal k)
      (* the command exits with code 0 *)
      ∧ (∀ stdout, suppressed_as_ignored (fileName cur) (k (ExecOk stdout)))
      (* the command exits with code 1 *)
      ∧ (∀ err, code err = VNum 1 → goes_on_to_report (k (ExecErr err)))
      (* any other exit code, no exit code, or a command that did not run *)
      ∧ (∀ err, code err ≠ VNum 1 →
           suppressed_as_ignored (fileName cur) (k (ExecErr err))).

(** ** Sample inputs *)

(** A stand-in for [path.dirname] on the sample paths. *)
Definition sample_dirname (file : jsstring) : jsstring := str "C:\proj".

(** An editor on line 1 of a three-line file of the workspace [proj]. *)
Definition sample_editor : TextEditor :=
  mkTextEditor (str "C:\proj\a.js") (str "javascript") 3
               (fun _ => str "let a = 1") (mkPosition 1 4).

Definition sample_vscode : vscode := mkVscode (Some sample_editor) (Some (str "proj")).

(** The snapshot of [sample_vscode]. *)
Definition sample_State : State :=
  mkState (Some (str "proj")) (str "C:\proj\a.js") (str "javascript") 1 4
          (str "let a = 1").

(** A checkout whose only remote, [origin], is on GitLab, and whose files
    are not ignored: the ignore check exits with code 1. *)
Definition gitlab_world : world :=
  mkWorld
    (fun cmd _ _ =>
       if startsWith cmd (str "git check-ignore") then
         ExecErr (mkExecError (VNum 1) (str "Error: Command failed"))
       else if bool_decide (cmd = str "git remote") then
         ExecOk (str "origin" ++ [LF])
       else ExecOk (str "git@gitlab.com:acme/widgets.git" ++ [LF]))
    (fun _ => FetchResponse true)
    (TextOk []).

(** The variables of a session that has reported line 0 of the sample file
    and has the repository of the workspace in the cache. *)
Definition cached_session : global :=
  mkGlobal ∅ {[ Some (str "proj") := str "https://github.com/acme/widgets" ]}
           (mkState (Some (str "proj")) (str "C:\proj\a.js") (str "javascript") 0 0 [])
           (Some 0%nat) [false] [].

(** ** Vocabulary of the further properties *)

(** [String.prototype.includes(pat)]: [pat] occurs somewhere in [s]. *)
Fixpoint contains (s pat : jsstring) : bool :=
  startsWith s pat
  || match s with
     | [] => false
     | _ :: s' => contains s' pat
     end.

(** The output of a command that prints each of [names] on a line of its
    own, every line ended by a line feed. *)
Definition print_lines (names : list jsstring) : jsstring :=
  flat_map (fun name => name ++ [LF]) names.

(** A name as git prints one: not empty and without white space. *)
Definition plain_name (name : jsstring) : Prop :=
  name ≠ [] ∧ Forall (fun c => isWhiteSpace c = false) name.

(** The calls that are reports, and the calls that are ignore checks. *)
Definition is_fetch (c : call) : bool :=
  match c with
  | CallFetch _ => true
  | _ => false
  end.

Definition is_ignore_check (c : call) : bool :=
  match c with
  | CallExec cmd _ _ => startsWith cmd (str "git check-ignore ")
  | _ => false
  end.

(** [segment t g a b]: one of the synchronous segments of the function
    [t], started on the variables [g], begins on the variables [a] and ends
    on the variables [b]; the other ticks run between the segments. *)
Inductive segment {A : Type} : task A → global → global → global → Prop :=
| segment_first t g g' st :
    run_sync t g = (g', st) →
    segment t g g g'
| segment_after_exec t g g1 cmd cwd signal k r g2 a b :
    run_sync t g = (g1, AwaitExec cmd cwd signal k) →
    segment (k r) g2 a b →
    segment t g a b
| segment_after_fetch t g g1 req k r g2 a b :
    run_sync t g = (g1, AwaitFetch req k) →
    segment (k r) g2 a b →
    segment t g a b
| segment_after_text t g g1 k r g2 a b :
    run_sync t g = (g1, AwaitText k) →
    segment (k r) g2 a b →
    segment t g a b.

(** Every write of the function [t], run from the variables [g], takes
    the variables to variables related to them by [R]; after an [await] the
    function goes on from any variables. *)
Fixpoint respects {A : Type} (R : global → global → Prop) (t : task A) (g : global)
  : Prop :=
  match t with
  | Ret _ | Throw _ => True
  | Get k => respects R (k g) g
  | Put g' k => R g g' ∧ respects R k g'
  | Exec _ _ _ k => ∀ r g2, respects R (k r) g2
  | Fetch _ k => ∀ r g2, respects R (k r) g2
  | RespText k => ∀ r g2, respects R (k r) g2
  end.

(** What a segment of a tick with the snapshot [cur] may do to the
    variables: the set of ignored files and the keys of the repository
    cache only grow, the last state is kept or becomes [cur], controllers
    are only added and an aborted controller stays aborted, and the log is
    only appended to. *)
Definition grows (cur : State) (a b : global) : Prop :=
  ignoredFiles a ⊆ ignoredFiles b
  ∧ dom (knownGitHubs a) ⊆ dom (knownGitHubs b)
  ∧ (prevState b = prevState a ∨ prevState b = cur)
  ∧ (length (controllers a) ≤ length (controllers b))%nat
  ∧ (∀ i, controllers a !! i = Some true → controllers b !! i = Some true)
  ∧ chan a `prefix_of` chan b.

(** The calls of the resolver are commands that start with [git remote]. *)
Definition is_git_remote (c : call) : bool :=
  match c with
  | CallExec cmd _ _ => startsWith cmd (str "git remote")
  | _ => false
  end.

(** ** The two commands of the extension *)

(** What a command handler asks of the editor, in order. *)
Inductive host_action : Type :=
| ShowInputBox (title prompt : jsstring) (password : bool)
| ShowErrorMessage (message : jsstring)
| SecretsStore (key value : jsstring)        (* context.secrets.store *)
| GlobalStateUpdate (key value : jsstring)   (* context.globalState.update *)
| ShowInformationMessage (message item : jsstring)
| ExecuteCommand (command : jsstring).

(** The end of both handlers: the message about the restart, and the reload
    of the window when its button is chosen.  [selection] is the answer to
    the message, [None] when it is dismissed. *)
Definition offer_reload (message : jsstring) (selection : option jsstring)
  : list host_action :=
  ShowInformationMessage message (str "Reload Window")
  :: (if strict_eq (match selection with Some item => VStr item | None => VUndefined end)
                   (VStr (str "Reload Window"))
      then [ExecuteCommand (str "workbench.action.reloadWindow")]
      else []).

(** [handleSetTokenCmd(context)] (the same text in both revisions); [token]
    is the answer of the input box, [None] when it is cancelled. *)
Definition handleSetTokenCmd (token selection : option jsstring) : list host_action :=
  ShowInputBox
    (str "Bearer token")
    (str "Set authorization bearer token used when making requests to target backend.")
    true
  :: match token with
     | None => [ShowErrorMessage (str "No token provided.")]
     | Some token =>
         if strict_eq (VStr (trim token)) (VStr [])
         then [ShowErrorMessage (str "No token provided.")]
         else
           SecretsStore (str "token") token
           :: offer_reload (str "Token updated, extension restart requried.") selection
     end.

(** [handleSetTargetCmd(context)] (the same text in both revisions). *)
Definition handleSetTargetCmd (target selection : option jsstring) : list host_action :=
  ShowInputBox (str "Target backend") (str "Set target backend.") false
  :: match target with
     | None => [ShowErrorMessage (str "No target provided.")]
     | Some target =>
         if strict_eq (VStr (trim target)) (VStr [])
         then [ShowErrorMessage (str "No target provided.")]
         else
           GlobalStateUpdate (str "target") target
           :: offer_reload (str "Target updated, extension restart requried.") selection
     end.

(** A string with a character that is not white space. *)
Definition not_blank (s : jsstring) : Prop :=
  Exists (fun c => isWhiteSpace c = false) s.

(** ** Further sample inputs *)

(** A checkout with two remotes: [origin] on GitLab and [upstream] on
    GitHub; the ignore check exits with code 1. *)
Definition two_remotes_world : world :=
  mkWorld
    (fun cmd _ _ =>
       if startsWith cmd (str "git check-ignore") then
         ExecErr (mkExecError (VNum 1) (str "Error: Command failed"))
       else if bool_decide (cmd = str "git remote") then
         ExecOk (print_lines [str "origin"; str "upstream"])
       else if bool_decide (cmd = str "git remote get-url --all upstream") then
         ExecOk (print_lines [str "git@github.com:acme/widgets.git"])
       else ExecOk (print_lines [str "git@gitlab.com:acme/widgets.git"]))
    (fun _ => FetchRejected (str "TypeError: fetch failed"))
    (TextOk []).

(** A directory that is no checkout: every command fails with code 128. *)
Definition failing_world : world :=
  mkWorld
    (fun _ _ _ => ExecErr (mkExecError (VNum 128) (str "Error: Command failed")))
    (fun _ => FetchRejected (str "TypeError: fetch failed"))
    (TextOk []).

(** The variables of a session that has reported line 0 of the sample file
    and has nothing in its caches. *)
Definition warm_session : global :=
  mkGlobal ∅ ∅
           (mkState (Some (str "proj")) (str "C:\proj\a.js") (str "javascript") 0 0 [])
           (Some 0%nat) [false] [].

(** The variables of a session that knows the sample file as ignored. *)
Definition ignoring_session : global :=
  mkGlobal {[ str "C:\proj\a.js" ]} ∅
           (mkState (Some (str "proj")) (str "C:\proj\a.js") (str "javascript") 0 0 [])
           (Some 0%nat) [false] [].

(** The variables of a session whose last state is the sample snapshot. *)
Definition reported_session : global :=
  mkGlobal ∅ ∅ sample_State (Some 0%nat) [false] [].

(** The editor API without an active editor. *)
Definition no_editor : vscode := mkVscode None (Some (str "proj")).

(** The editor API with the sample editor and no folder open. *)
Definition no_folder : vscode := mkVscode (Some sample_editor) None.

(** * Properties *)

(** ** The view window *)

Lemma Range_new_ordered (a b : Position) :
  Position_isBefore b a = false → Range_new a b = mkRange a b.
Proof. unfold Range_new. by intros ->. Qed.

Lemma getViewRange_long (activeLine lineCount : Z) :
  11 ≤ lineCount →
  getViewRange activeLine lineCount =
    Some (mkRange (mkPosition (viewStart activeLine lineCount) 0)
                  (mkPosition (viewStart activeLine lineCount + 10) 0)).
Proof.
  intros HN. unfold getViewRange, viewStart.
  destruct (Z.ltb_spec lineCount (5 * 2 + 1)); [lia|].
  destruct (Z.geb_spec (lineCount - Z.max 0 (activeLine - 5)) (5 * 2 + 1)).
  - replace (Z.min (Z.max 0 (activeLine - 5)) (lineCount - 11))
      with (Z.max 0 (activeLine - 5)) by lia.
    unfold Position_new.
    destruct (Z.ltb_spec (Z.max 0 (activeLine - 5)) 0); [lia|].
    destruct (Z.ltb_spec (Z.max 0 (activeLine - 5) + (5 * 2 + 1) - 1) 0); [lia|].
    cbn. rewrite Range_new_ordered.
    + do 2 f_equal. f_equal. lia.
    + unfold Position_isBefore; cbn.
      destruct (Z.ltb_spec (Z.max 0 (activeLine - 5) + (5 * 2 + 1) - 1)
                           (Z.max 0 (activeLine - 5))); [lia|].
      by rewrite andb_false_r.
  - set (s := Z.max 0 (activeLine - 5)
              - Z.abs (lineCount - Z.max 0 (activeLine - 5) - (5 * 2 + 1))).
    assert (Hs : s = lineCount - 11) by (unfold s; lia).
    replace (Z.min (Z.max 0 (activeLine - 5)) (lineCount - 11)) with s by lia.
    unfold Position_new.
    destruct (Z.ltb_spec s 0); [lia|].
    destruct (Z.ltb_spec (s + (5 * 2 + 1) - 1) 0); [lia|].
    cbn. rewrite Range_new_ordered.
    + do 2 f_equal. f_equal. lia.
    + unfold Position_isBefore; cbn.
      destruct (Z.ltb_spec (s + (5 * 2 + 1) - 1) s); [lia|].
      by rewrite andb_false_r.
Qed.

(** C5: for a document of [lineCount >= 11] lines and a cursor line in
    [[0, lineCount)], [getViewRange] returns (it does not throw) the range
    from column 0 of line [s] to column 0 of line [s + 10], where [s] is
    [viewStart activeLine lineCount]; both lines lie in [[0, lineCount)]
    and the cursor line lies between them.  The range ends before the
    first character of line [s + 10], so the lines that lie in it are the
    ten lines [[s, s + 10)], not eleven, and the line of the cursor is not
    among them exactly when the cursor is on the last line of the
    document. *)
Theorem getViewRange_window_ten_lines (activeLine lineCount : Z) :
  11 ≤ lineCount → 0 ≤ activeLine < lineCount →
  ∃ r, getViewRange activeLine lineCount = Some r
       ∧ range_start r = mkPosition (viewStart activeLine lineCount) 0
       ∧ range_end r = mkPosition (viewStart activeLine lineCount + 10) 0
       ∧ 0 ≤ line (range_start r)
       ∧ line (range_end r) < lineCount
       ∧ line (range_start r) ≤ activeLine ≤ line (range_end r)
       ∧ (∀ i, Range_containsLine r i = true
               ↔ line (range_start r) ≤ i < line (range_start r) + 10)
       ∧ (Range_containsLine r activeLine = false ↔ activeLine = lineCount - 1).
Proof.
  intros HN HL. eexists. split; [by apply getViewRange_long|].
  do 2 (split; [done|]).
  assert (Hcut : ∀ i, Range_containsLine
                        (mkRange (mkPosition (viewStart activeLine lineCount) 0)
                                 (mkPosition (viewStart activeLine lineCount + 10) 0)) i
                      = true
                      ↔ viewStart activeLine lineCount ≤ i
                        < viewStart activeLine lineCount + 10).
  { intros i. lines_in_range. lia. }
  cbn [line character range_start range_end].
  assert (Hs : 0 ≤ viewStart activeLine lineCount ≤ activeLine
               ∧ activeLine ≤ viewStart activeLine lineCount + 10 < lineCount)
    by (unfold viewStart; lia).
  split; [lia|]. split; [lia|]. split; [lia|]. split; [exact Hcut|].
  split.
  - intros Hout. destruct (Z.eq_dec activeLine (lineCount - 1)) as [|Hne]; [done|].
    assert (Hin : viewStart activeLine lineCount ≤ activeLine
                  < viewStart activeLine lineCount + 10) by (unfold viewStart; lia).
    apply Hcut in Hin. congruence.
  - intros ->. apply not_true_is_false. intros Hin%Hcut.
    unfold viewStart in Hin. lia.
Qed.

(** The cursor on the last line of a document of eleven lines: the range
    runs from line 0 to column 0 of line 10 and holds the lines 0 to 9. *)
Lemma getViewRange_window_ten_lines_witness :
  ∃ r, getViewRange 10 11 = Some r
       ∧ range_start r = mkPosition 0 0
       ∧ range_end r = mkPosition 10 0
       ∧ 0 ≤ line (range_start r)
       ∧ line (range_end r) < 11
       ∧ line (range_start r) ≤ 10 ≤ line (range_end r)
       ∧ (∀ i, Range_containsLine r i = true
               ↔ line (range_start r) ≤ i < line (range_start r) + 10)
       ∧ (Range_containsLine r 10 = false ↔ 10 = 11 - 1).
Proof. apply (getViewRange_window_ten_lines 10 11); lia. Defined.

(** C6: for a document of [lineCount < 11] lines and any cursor line,
    [getViewRange] returns the range from the start of line 0 to the start
    of line [lineCount]: the lines that lie in it are exactly the lines
    [[0, lineCount)], the whole document. *)
Theorem getViewRange_short (activeLine lineCount : Z) :
  0 ≤ lineCount < 11 →
  getViewRange activeLine lineCount =
    Some (mkRange (mkPosition 0 0) (mkPosition lineCount 0))
  ∧ ∀ i, 0 ≤ i →
      Range_containsLine (mkRange (mkPosition 0 0) (mkPosition lineCount 0)) i = true
      ↔ i < lineCount.
Proof.
  intros HN. split.
  - unfold getViewRange.
    destruct (Z.ltb_spec lineCount (5 * 2 + 1)); [|lia].
    unfold Position_new.
    destruct (Z.ltb_spec lineCount 0); [lia|]. cbn.
    rewrite Range_new_ordered; [done|].
    unfold Position_isBefore; cbn.
    destruct (Z.ltb_spec lineCount 0); [lia|]. by rewrite andb_false_r.
  - intros i Hi.
    lines_in_range. lia.
Qed.

Lemma getViewRange_short_witness :
  getViewRange 2 4 = Some (mkRange (mkPosition 0 0) (mkPosition 4 0))
  ∧ ∀ i, 0 ≤ i →
      Range_containsLine (mkRange (mkPosition 0 0) (mkPosition 4 0)) i = true
      ↔ i < 4.
Proof. apply (getViewRange_short 2 4); lia. Defined.

(** ** The change detector *)

Lemma strict_eq_refl (v : jsval) : strict_eq v v = true.
Proof.
  destruct v; cbn; auto using Z.eqb_refl.
  - by destruct b.
  - by apply bool_decide_eq_true.
Qed.

Lemma strict_eq_true (a b : jsval) : strict_eq a b = true ↔ a = b.
Proof.
  split; [|intros ->; apply strict_eq_refl].
  destruct a, b; cbn; try discriminate; try done.
  - destruct b, b0; cbn; congruence.
  - intros H%Z.eqb_eq. congruence.
  - intros H%bool_decide_eq_true. congruence.
Qed.

(** [===] on two values of type [string | undefined]. *)
Lemma strict_eq_optional_string (a b : option jsstring) :
  strict_eq (optional_string a) (optional_string b) = bool_decide (a = b).
Proof.
  destruct a as [a|], b as [b|]; cbn; try done.
  destruct (decide (a = b)) as [->|Hne].
  - by rewrite !bool_decide_eq_true_2.
  - rewrite !bool_decide_eq_false_2; [done|congruence|done].
Qed.

(** [shallowEqual] on two State objects compares the six fields. *)
Lemma shallowEqual_State (s1 s2 : State) :
  shallowEqual (State_obj s1) (State_obj s2) = true ↔ s1 = s2.
Proof.
  destruct s1 as [w1 f1 l1 r1 c1 v1], s2 as [w2 f2 l2 r2 c2 v2].
  unfold shallowEqual; cbn.
  rewrite strict_eq_optional_string.
  rewrite !andb_true_iff, !bool_decide_eq_true, !Z.eqb_eq.
  split; [intros (-> & -> & -> & -> & -> & -> & _); done|].
  intros [= -> -> -> -> -> ->]. repeat split.
Qed.

Lemma changed_true_iff (s1 s2 : State) : changed s1 s2 = true ↔ s1 ≠ s2.
Proof.
  unfold changed. rewrite negb_true_iff, <- not_true_iff_false.
  by rewrite shallowEqual_State.
Qed.

Lemma changed_false_iff (s1 s2 : State) : changed s1 s2 = false ↔ s1 = s2.
Proof.
  unfold changed. rewrite negb_false_iff. apply shallowEqual_State.
Qed.

(** A tick on another file is a change, and [didChangeFile] is true. *)
Lemma changed_file (prev cur : State) :
  fileName prev ≠ fileName cur →
  shallowEqual (State_obj prev) (State_obj cur) = false
  ∧ negb (strict_eq (VStr (fileName prev)) (VStr (fileName cur))) = true.
Proof.
  intros Hf. split.
  - apply not_true_iff_false. intros ->%shallowEqual_State. done.
  - apply negb_true_iff, not_true_iff_false. intros [= ?]%strict_eq_true. done.
Qed.

Lemma differing_fields_same (s : State) : differing_fields s s = 0%nat.
Proof.
  unfold differing_fields. by rewrite !bool_decide_eq_true_2.
Qed.

(** C7: the change detector answers false on a State and itself, and true
    on two States that differ in exactly one of the six fields. *)
Theorem changed_reflexive_and_sensitive (s s1 s2 : State) :
  changed s s = false
  ∧ (differing_fields s1 s2 = 1%nat → changed s1 s2 = true).
Proof.
  split; [by apply changed_false_iff|].
  intros Hd. apply changed_true_iff. intros ->.
  rewrite differing_fields_same in Hd. discriminate.
Qed.

Lemma changed_reflexive_and_sensitive_witness :
  changed (mkState (Some (str "proj")) (str "a.js") (str "javascript") 3 0 (str "x"))
          (mkState (Some (str "proj")) (str "a.js") (str "javascript") 3 0 (str "x")) = false
  ∧ changed (mkState (Some (str "proj")) (str "a.js") (str "javascript") 3 0 (str "x"))
            (mkState (Some (str "proj")) (str "a.js") (str "javascript") 4 0 (str "x")) = true.
Proof.
  split.
  - apply (changed_reflexive_and_sensitive
             (mkState (Some (str "proj")) (str "a.js") (str "javascript") 3 0 (str "x"))
             (mkState (Some (str "proj")) (str "a.js") (str "javascript") 3 0 (str "x"))
             (mkState (Some (str "proj")) (str "a.js") (str "javascript") 4 0 (str "x"))).
  - apply (changed_reflexive_and_sensitive
             (mkState (Some (str "proj")) (str "a.js") (str "javascript") 3 0 (str "x"))
             (mkState (Some (str "proj")) (str "a.js") (str "javascript") 3 0 (str "x"))
             (mkState (Some (str "proj")) (str "a.js") (str "javascript") 4 0 (str "x"))).
    vm_compute. reflexivity.
Defined.

(** ** The remote URLs of the resolver *)

(** A URL is accepted exactly when it starts with [git@github.com]. *)
Lemma getGitRemoteURL_urls_accepts (url : jsstring) :
  is_Some (Part000.getGitRemoteURL_urls [url])
  ↔ startsWith url (str "git@github.com") = true.
Proof.
  cbn [Part000.getGitRemoteURL_urls].
  destruct (startsWith url (str "git@github.com")); split; intros H; try done.
Qed.

(** The first accepted URL of the list wins. *)
Lemma getGitRemoteURL_urls_first (url : jsstring) (urls : list jsstring) :
  startsWith url (str "git@github.com") = true →
  Part000.getGitRemoteURL_urls (url :: urls) = Part000.getGitRemoteURL_urls [url].
Proof. cbn [Part000.getGitRemoteURL_urls]. by intros ->. Qed.

Lemma getGitRemoteURL_urls_skip (url : jsstring) (urls : list jsstring) :
  startsWith url (str "git@github.com") = false →
  Part000.getGitRemoteURL_urls (url :: urls) = Part000.getGitRemoteURL_urls urls.
Proof. cbn [Part000.getGitRemoteURL_urls]. by intros ->. Qed.

Example getGitRemoteURL_urls_widgets :
  Part000.getGitRemoteURL_urls [str "git@github.com:acme/widgets.git"]
  = Some (str "https://github.com/acme/widgets").
Proof. vm_compute. reflexivity. Qed.

Example getGitRemoteURL_urls_gitlab :
  Part000.getGitRemoteURL_urls [str "git@gitlab.com:acme/widgets.git"] = None.
Proof. vm_compute. reflexivity. Qed.

(** C3, at the remote of a GitHub Pages repository: the URL
    [git@github.com:tifye/tifye.github.io.git] is accepted, and the second
    [replace] removes the first [.git] of the URL, the one inside
    [.github.io], not the suffix: the function returns
    [https://github.com/tifye/tifyehub.io.git] and not
    [https://github.com/tifye/tifye.github.io]. *)
Theorem getGitRemoteURL_first_dot_git (dir : jsstring) (signal : nat) (g : global) :
  run (printing (str "git@github.com:tifye/tifye.github.io.git" ++ [LF]))
      (Part000.getGitRemoteURL dir (str "origin") signal) g
  = (g, inl (Some (str "https://github.com/tifye/tifyehub.io.git")),
     [CallExec (str "git remote get-url --all origin") dir signal])
  ∧ str "https://github.com/tifye/tifyehub.io.git"
    ≠ str "https://github.com/tifye/tifye.github.io".
Proof. split; [vm_compute; reflexivity | discriminate]. Qed.

(** ** Asynchronous functions *)

Lemma run_sync_bind {A B : Type} (t : task A) (f : A → task B) (g : global) :
  run_sync (t ≫= f) g =
    match run_sync t g with
    | (g', Finished a) => run_sync (f a) g'
    | (g', Failed e) => (g', Failed e)
    | (g', AwaitExec cmd cwd signal k) =>
        (g', AwaitExec cmd cwd signal (fun r => k r ≫= f))
    | (g', AwaitFetch req k) => (g', AwaitFetch req (fun r => k r ≫= f))
    | (g', AwaitText k) => (g', AwaitText (fun r => k r ≫= f))
    end.
Proof.
  revert g. induction t as [a|e|k IH|g0 k IH|cmd cwd signal k IH|req k IH|k IH];
    intros g; cbn; auto.
Qed.

Lemma no_fetch_bind {A B : Type} (t : task A) (f : A → task B) :
  no_fetch t → (∀ a, no_fetch (f a)) → no_fetch (t ≫= f).
Proof.
  intros Ht Hf. induction t as [a|e|k IH|g0 k IH|cmd cwd signal k IH|req k IH|k IH];
    cbn in *; auto; done.
Qed.

Lemma no_fetch_run_sync {A : Type} (t : task A) (g g' : global) (st : status A) :
  no_fetch t → run_sync t g = (g', st) →
  match st with
  | AwaitExec _ _ _ k => ∀ r, no_fetch (k r)
  | AwaitFetch _ _ => False
  | AwaitText k => ∀ r, no_fetch (k r)
  | _ => True
  end.
Proof.
  revert g. induction t as [a|e|k IH|g0 k IH|cmd cwd signal k IH|req k IH|k IH];
    intros g Ht Hrun; cbn in *; try (injection Hrun as <- <-; done).
  - exact (IH g g (Ht g) Hrun).
  - exact (IH g0 Ht Hrun).
Qed.

(** A function without a [fetch] call sends nothing. *)
Lemma no_fetch_sends {A : Type} (t : task A) (g : global) (req : request) (g' : global) :
  no_fetch t → ¬ sends t g req g'.
Proof.
  intros Ht Hs. induction Hs as
    [t g g' req k Hrun
    |t g g1 cmd cwd signal k r g2 req g' Hrun Hs IH
    |t g g1 req1 k r g2 req g' Hrun Hs IH
    |t g g1 k r g2 req g' Hrun Hs IH].
  - apply (no_fetch_run_sync _ _ _ _ Ht Hrun).
  - apply IH. apply (no_fetch_run_sync _ _ _ _ Ht Hrun).
  - apply (no_fetch_run_sync _ _ _ _ Ht Hrun).
  - apply IH. apply (no_fetch_run_sync _ _ _ _ Ht Hrun).
Qed.

(** The request of [t ≫= f] is sent by [t] or by [f] on a result of [t]. *)
Lemma sends_bind {A B : Type} (t : task A) (f : A → task B)
    (g : global) (req : request) (g' : global) :
  sends (t ≫= f) g req g' →
  (∃ a g1, returns t g a g1 ∧ sends (f a) g1 req g') ∨ ¬ no_fetch t.
Proof.
  intros Hs. remember (t ≫= f) as tf eqn:Etf. revert t Etf.
  induction Hs as
    [tf g g' req k Hrun
    |tf g g1 cmd cwd signal k r g2 req g' Hrun Hs IH
    |tf g g1 req1 k r g2 req g' Hrun Hs IH
    |tf g g1 k r g2 req g' Hrun Hs IH]; intros t ->;
    rewrite run_sync_bind in Hrun;
    destruct (run_sync t g) as [g0 st] eqn:Ht; destruct st; try discriminate.
  - left. exists a, g0. split; [by apply returns_now|by eapply sends_now].
  - right. intros Hn. apply (no_fetch_run_sync _ _ _ _ Hn Ht).
  - left. exists a, g0. split; [by apply returns_now|by eapply sends_after_exec].
  - injection Hrun as -> -> -> -> <-.
    destruct (IH (k0 r) eq_refl) as [(a & g3 & Hret & Hsend)|Hn].
    + left. exists a, g3. split; [by eapply returns_after_exec|done].
    + right. intros Hn'. apply Hn. apply (no_fetch_run_sync _ _ _ _ Hn' Ht).
  - left. exists a, g0. split; [by apply returns_now|by eapply sends_after_fetch].
  - right. intros Hn. apply (no_fetch_run_sync _ _ _ _ Hn Ht).
  - left. exists a, g0. split; [by apply returns_now|by eapply sends_after_text].
  - injection Hrun as -> <-.
    destruct (IH (k0 r) eq_refl) as [(a & g3 & Hret & Hsend)|Hn].
    + left. exists a, g3. split; [by eapply returns_after_text|done].
    + right. intros Hn'. apply Hn. apply (no_fetch_run_sync _ _ _ _ Hn' Ht).
Qed.

(** What a request that is sent says about the first segment. *)
Lemma sends_inv {A : Type} (t : task A) (g : global) (req : request) (g' : global) :
  sends t g req g' →
  match run_sync t g with
  | (_, Finished _) | (_, Failed _) => False
  | (_, AwaitExec _ _ _ k) => ∃ r g2, sends (k r) g2 req g'
  | (g1, AwaitFetch req1 k) =>
      (req1 = req ∧ g1 = g') ∨ ∃ r g2, sends (k r) g2 req g'
  | (_, AwaitText k) => ∃ r g2, sends (k r) g2 req g'
  end.
Proof.
  intros Hs. destruct Hs as
    [t g g' req k Hrun
    |t g g1 cmd cwd signal k r g2 req g' Hrun Hs
    |t g g1 req1 k r g2 req g' Hrun Hs
    |t g g1 k r g2 req g' Hrun Hs]; rewrite Hrun; eauto.
Qed.

(** Only the first segment of a function matters to what it sends. *)
Lemma sends_run_sync {A : Type} (t t' : task A) (g g0 : global) (req : request)
    (g' : global) :
  run_sync t g = run_sync t' g0 → sends t g req g' → sends t' g0 req g'.
Proof.
  intros Heq Hs. destruct Hs as
    [t g g' req k Hrun
    |t g g1 cmd cwd signal k r g2 req g' Hrun Hs
    |t g g1 req1 k r g2 req g' Hrun Hs
    |t g g1 k r g2 req g' Hrun Hs]; rewrite Heq in Hrun.
  - by eapply sends_now.
  - by eapply sends_after_exec.
  - by eapply sends_after_fetch.
  - by eapply sends_after_text.
Qed.



(** ** The resolver makes no [fetch] call *)

Lemma appendLine_no_fetch (text : jsstring) : no_fetch (appendLine text).
Proof. by intros g. Qed.

Lemma getGitRemoteURL_no_fetch (dir remote : jsstring) (signal : nat) :
  no_fetch (Part000.getGitRemoteURL dir remote signal).
Proof. intros [stdout|err]; cbn; done. Qed.

Lemma getGitRemotes_no_fetch (dir : jsstring) (signal : nat) :
  no_fetch (Part000.getGitRemotes dir signal).
Proof. intros [stdout|err]; cbn; done. Qed.

Lemma findGitHubURL_remotes_no_fetch (ws : option jsstring) (dir : jsstring) (signal : nat)
    (remotes : list jsstring) :
  no_fetch (Part000.findGitHubURL_remotes ws dir signal remotes).
Proof.
  induction remotes as [|remote remotes IH]; [done|].
  cbn [Part000.findGitHubURL_remotes].
  apply no_fetch_bind; [apply getGitRemoteURL_no_fetch|].
  intros [url|]; [by cbn | apply IH].
Qed.

Lemma findGitHubURL_no_fetch (dirname : jsstring → jsstring)
    (ws : option jsstring) (file : jsstring) (signal : nat) :
  no_fetch (Part000.findGitHubURL dirname ws file signal).
Proof.
  intros g. cbn. destruct (knownGitHubs g !! ws) as [url|]; [by cbn|].
  apply (no_fetch_bind (Part000.getGitRemotes (dirname file) signal)).
  - apply getGitRemotes_no_fetch.
  - apply findGitHubURL_remotes_no_fetch.
Qed.

Lemma current_signal_no_fetch : no_fetch current_signal.
Proof. intros g. cbn. by destruct (updateStateAbortController g). Qed.

(** ** Functions run to their end *)

Arguments str : simpl never.
Arguments shallowEqual : simpl never.
Arguments State_obj : simpl never.
Arguments JSON_stringify : simpl never.
Arguments obj_spread : simpl never.
Arguments set_chan : simpl never.
Arguments set_prevState : simpl never.
Arguments set_ignoredFiles : simpl never.
Arguments set_knownGitHubs : simpl never.
Arguments abort_current : simpl never.
Arguments install_controller : simpl never.
Arguments isIgnored_after : simpl never.
Arguments strict_eq : simpl never.
Arguments send : simpl never.
Arguments Part000.pollState_report : simpl never.
Arguments Part000.findGitHubURL : simpl never.

Lemma run_bind {A B : Type} (w : world) (t : task A) (f : A → task B) (g : global) :
  run w (t ≫= f) g =
    match run w t g with
    | (g1, inl a, calls1) =>
        let '(g2, r, calls2) := run w (f a) g1 in (g2, r, calls1 ++ calls2)
    | (g1, inr e, calls1) => (g1, inr e, calls1)
    end.
Proof.
  revert g. induction t as [a|e|k IH|g0 k IH|cmd cwd signal k IH|req k IH|k IH];
    intros g; cbn; auto.
  - by destruct (run w (f a) g) as [[g2 r] calls2].
  - rewrite IH. destruct (run w (k _) g) as [[g1 [a|e]] calls1]; [|done].
    by destruct (run w (f a) g1) as [[g2 r] calls2].
  - rewrite IH. destruct (run w (k _) g) as [[g1 [a|e]] calls1]; [|done].
    by destruct (run w (f a) g1) as [[g2 r] calls2].
  - rewrite IH. destruct (run w (k _) g) as [[g1 [a|e]] calls1]; [|done].
    by destruct (run w (f a) g1) as [[g2 r] calls2].
Qed.

Lemma same_session_refl (g : global) : same_session g g.
Proof. by repeat split. Qed.

Lemma same_session_trans (g g1 g2 : global) :
  same_session g g1 → same_session g1 g2 → same_session g g2.
Proof. unfold same_session. intros (?&?&?&?) (?&?&?&?). repeat split; congruence. Qed.

Lemma same_session_chan f (g : global) : same_session g (set_chan f g).
Proof. by repeat split. Qed.

Lemma same_session_known f (g : global) : same_session g (set_knownGitHubs f g).
Proof. by repeat split. Qed.

(** [getGitRemoteURL] run to its end: one call, the URL the loop finds in
    the output, and only the log written. *)
Lemma run_getGitRemoteURL (w : world) (dir remote : jsstring) (signal : nat) (g : global) :
  ∃ g1,
    run w (Part000.getGitRemoteURL dir remote signal) g =
      (g1,
       inl (match on_exec w (str "git remote get-url --all " ++ remote) dir signal with
            | ExecOk stdout => Part000.getGitRemoteURL_urls (split (trim stdout))
            | ExecErr _ => None
            end),
       [CallExec (str "git remote get-url --all " ++ remote) dir signal])
    ∧ same_session g g1 ∧ knownGitHubs g1 = knownGitHubs g.
Proof.
  cbn. destruct (on_exec w _ dir signal) as [stdout|err]; cbn.
  - exists g. split; [done|]. split; [apply same_session_refl|done].
  - eexists. split; [done|]. split; [apply same_session_chan|done].
Qed.

(** [getGitRemotes] run to its end. *)
Lemma run_getGitRemotes (w : world) (dir : jsstring) (signal : nat) (g : global) :
  ∃ g1,
    run w (Part000.getGitRemotes dir signal) g =
      (g1,
       inl (match on_exec w (str "git remote") dir signal with
            | ExecOk stdout => split (trim stdout)
            | ExecErr _ => []
            end),
       [CallExec (str "git remote") dir signal])
    ∧ same_session g g1 ∧ knownGitHubs g1 = knownGitHubs g.
Proof.
  cbn. destruct (on_exec w _ dir signal) as [stdout|err]; cbn.
  - exists g. split; [done|]. split; [apply same_session_refl|done].
  - eexists. split; [done|]. split; [apply same_session_chan|done].
Qed.

Lemma getGitRemoteURL_urls_none (urls : list jsstring) :
  forallb (fun url => negb (startsWith url (str "git@github.com"))) urls = true →
  Part000.getGitRemoteURL_urls urls = None.
Proof.
  induction urls as [|url urls IH]; [done|].
  cbn [forallb Part000.getGitRemoteURL_urls].
  intros [Hu Hr]%andb_true_iff.
  apply negb_true_iff in Hu. rewrite Hu. by apply IH.
Qed.

(** The loop of the resolver run to its end: it returns a value, it never
    throws, and it leaves the other variables of the session alone. *)
Lemma run_findGitHubURL_remotes (w : world) (ws : option jsstring) (dir : jsstring) (signal : nat)
    (remotes : list jsstring) (g : global) :
  ∃ g1 repository calls,
    run w (Part000.findGitHubURL_remotes ws dir signal remotes) g
      = (g1, inl repository, calls)
    ∧ same_session g g1.
Proof.
  revert g. induction remotes as [|remote remotes IH]; intros g.
  - exists g, None, []. split; [done|apply same_session_refl].
  - cbn [Part000.findGitHubURL_remotes]. rewrite run_bind.
    destruct (run_getGitRemoteURL w dir remote signal g) as (g1 & -> & Hs & Hk).
    destruct (match on_exec w _ dir signal with ExecOk _ => _ | ExecErr _ => _ end)
      as [url|].
    + cbn. do 3 eexists. split; [done|].
      eapply same_session_trans; [apply Hs|].
      eapply same_session_trans; [apply same_session_known|apply same_session_chan].
    + destruct (IH g1) as (g2 & repository & calls & -> & Hs2).
      do 3 eexists. split; [done|]. by eapply same_session_trans.
Qed.

(** When no URL has the GitHub shape the loop looks every remote up, in
    order, returns [undefined] and leaves the cache as it was. *)
Lemma run_findGitHubURL_remotes_none (w : world) (ws : option jsstring) (dir : jsstring) (signal : nat)
    (remotes : list jsstring) (g : global) :
  no_github_url w dir signal remotes = true →
  ∃ g1,
    run w (Part000.findGitHubURL_remotes ws dir signal remotes) g
      = (g1, inl None, map (get_url_call dir signal) remotes)
    ∧ knownGitHubs g1 = knownGitHubs g.
Proof.
  revert g. induction remotes as [|remote remotes IH]; intros g Hno.
  - by exists g.
  - cbn [no_github_url forallb] in Hno. apply andb_true_iff in Hno as [Hr Hno].
    cbn [Part000.findGitHubURL_remotes]. rewrite run_bind.
    destruct (run_getGitRemoteURL w dir remote signal g) as (g1 & -> & Hs & Hk).
    unfold remote_urls, get_url_cmd in Hr.
    assert (Hnone : match on_exec w (str "git remote get-url --all " ++ remote) dir signal with
                    | ExecOk stdout => Part000.getGitRemoteURL_urls (split (trim stdout))
                    | ExecErr _ => None
                    end = None).
    { destruct (on_exec w _ dir signal); [by apply getGitRemoteURL_urls_none|done]. }
    rewrite Hnone.
    destruct (IH g1 Hno) as (g2 & -> & Hk2).
    exists g2. split; [done|congruence].
Qed.

Section Pipeline.

Variable dirname : jsstring → jsstring.

(** ** The repository resolver *)

(** A resolution run to its end returns a value and leaves the other
    variables of the session alone. *)
Lemma run_findGitHubURL (w : world) (ws : option jsstring) (file : jsstring) (signal : nat) (g : global) :
  ∃ g1 repository calls,
    run w (Part000.findGitHubURL dirname ws file signal) g
      = (g1, inl repository, calls)
    ∧ same_session g g1.
Proof.
  unfold Part000.findGitHubURL. cbn [mbind task_mbind task_bind gets run].
  destruct (knownGitHubs g !! ws) as [url|].
  - cbn. do 3 eexists. split; [done|apply same_session_chan].
  - change (task_bind ?f ?t) with (t ≫= f). rewrite run_bind.
    destruct (run_getGitRemotes w (dirname file) signal g) as (g1 & -> & Hs & _).
    destruct (run_findGitHubURL_remotes w ws (dirname file) signal
                (match on_exec w (str "git remote") (dirname file) signal with
                 | ExecOk stdout => split (trim stdout)
                 | ExecErr _ => []
                 end) g1) as (g2 & repository & calls & -> & Hs2).
    do 3 eexists. split; [done|]. by eapply same_session_trans.
Qed.

(** On a workspace that is not in the cache a resolution starts with the
    enumeration of the remotes, whatever the world answers. *)
Lemma run_findGitHubURL_miss (w : world) (ws : option jsstring) (file : jsstring) (signal : nat) (g : global) :
  knownGitHubs g !! ws = None →
  ∃ g1 r calls,
    run w (Part000.findGitHubURL dirname ws file signal) g
      = (g1, r, CallExec (str "git remote") (dirname file) signal :: calls).
Proof.
  intros Hmiss. unfold Part000.findGitHubURL.
  cbn [mbind task_mbind task_bind gets run]. rewrite Hmiss.
  cbn [task_bind Part000.getGitRemotes mbind task_mbind exec run].
  destruct (run w _ g) as [[g1 r] calls]. by do 3 eexists.
Qed.

(** On a workspace that is in the cache a resolution makes no call. *)
Lemma run_findGitHubURL_hit (w : world) (ws : option jsstring) (file url : jsstring) (signal : nat)
    (g : global) :
  knownGitHubs g !! ws = Some url →
  ∃ g1,
    run w (Part000.findGitHubURL dirname ws file signal) g = (g1, inl (Some url), [])
    ∧ knownGitHubs g1 = knownGitHubs g.
Proof.
  intros Hhit. unfold Part000.findGitHubURL.
  cbn [mbind task_mbind task_bind gets run]. rewrite Hhit. cbn. by eexists.
Qed.

(** C2, as the code has it: on a workspace that is not in the cache and
    whose remotes print no URL of the GitHub SSH shape, the resolver returns
    [undefined] and leaves the cache as it was, so nothing is cached for the
    workspace; a second resolution for the workspace, in any world, starts
    again with the external call that enumerates the remotes. *)
Theorem findGitHubURL_absent_not_cached (w : world) (ws : option jsstring) (file : jsstring)
    (signal : nat) (g : global) :
  knownGitHubs g !! ws = None →
  no_github_url w (dirname file) signal (remote_names w (dirname file) signal) = true →
  ∃ g1 calls,
    run w (Part000.findGitHubURL dirname ws file signal) g = (g1, inl None, calls)
    ∧ knownGitHubs g1 = knownGitHubs g
    ∧ ∀ w' signal', ∃ g2 r calls',
        run w' (Part000.findGitHubURL dirname ws file signal') g1
          = (g2, r, CallExec (str "git remote") (dirname file) signal' :: calls').
Proof.
  intros Hmiss Hno.
  assert (Hrun : ∃ g1 calls,
    run w (Part000.findGitHubURL dirname ws file signal) g = (g1, inl None, calls)
    ∧ knownGitHubs g1 = knownGitHubs g).
  { unfold Part000.findGitHubURL. cbn [mbind task_mbind task_bind gets run].
    rewrite Hmiss. change (task_bind ?f ?t) with (t ≫= f). rewrite run_bind.
    destruct (run_getGitRemotes w (dirname file) signal g) as (g1 & -> & _ & Hk).
    destruct (run_findGitHubURL_remotes_none w ws (dirname file) signal _ g1 Hno)
      as (g2 & Hrun & Hk2).
    unfold remote_names in Hrun. rewrite Hrun.
    do 2 eexists. split; [done|congruence]. }
  destruct Hrun as (g1 & calls & Hrun & Hk).
  exists g1, calls. split; [done|]. split; [done|].
  intros w' signal'. apply run_findGitHubURL_miss. congruence.
Qed.

Lemma split_not_nil (s : jsstring) : split s ≠ [].
Proof. unfold split. by destruct (split_from s). Qed.

(** C9: when the enumeration command succeeds with empty output,
    [getGitRemotes] returns the list of one empty string, and a resolution
    that misses the cache makes exactly one lookup call after the
    enumeration, for the empty remote name; [getGitRemotes] returns the
    empty list exactly when the enumeration command fails. *)
Theorem getGitRemotes_empty_output (w : world) (dir : jsstring) (signal : nat)
    (g : global) :
  (∀ stdout,
     on_exec w (str "git remote") dir signal = ExecOk stdout → trim stdout = [] →
     (run w (Part000.getGitRemotes dir signal) g).1.2 = inl [[]]
     ∧ ∀ ws file,
         dirname file = dir → knownGitHubs g !! ws = None →
         (run w (Part000.findGitHubURL dirname ws file signal) g).2
           = [CallExec (str "git remote") dir signal;
              CallExec (str "git remote get-url --all " ++ []) dir signal])
  ∧ ((run w (Part000.getGitRemotes dir signal) g).1.2 = inl []
     ↔ ∃ err, on_exec w (str "git remote") dir signal = ExecErr err).
Proof.
  split.
  - intros stdout Hexec Htrim. split.
    + destruct (run_getGitRemotes w dir signal g) as (g1 & -> & _).
      by rewrite Hexec, Htrim.
    + intros ws file <- Hmiss. unfold Part000.findGitHubURL.
      cbn [mbind task_mbind task_bind gets run]. rewrite Hmiss.
      change (task_bind ?f ?t) with (t ≫= f). rewrite run_bind.
      destruct (run_getGitRemotes w (dirname file) signal g) as (g1 & -> & _).
      rewrite Hexec, Htrim.
      change (split []) with [[] : jsstring].
      cbn [Part000.findGitHubURL_remotes]. rewrite run_bind.
      destruct (run_getGitRemoteURL w (dirname file) [] signal g1) as (g2 & -> & _).
      by destruct (match on_exec w _ (dirname file) signal with
                   | ExecOk _ => _ | ExecErr _ => _ end).
  - destruct (run_getGitRemotes w dir signal g) as (g1 & -> & _). cbn [fst snd].
    destruct (on_exec w (str "git remote") dir signal) as [stdout|err].
    + split; [|by intros [err [=]]].
      intros [= H]. by apply split_not_nil in H.
    + split; [by eexists|done].
Qed.

(** ** The ignore check *)

(** The test of [isIgnored] after the check. *)
Lemma isIgnored_exit_0 (stdout : jsstring) :
  strict_eq (isIgnored_after (ExecOk stdout)) VUndefined
  || strict_eq (isIgnored_after (ExecOk stdout)) (VBool true) = true.
Proof. done. Qed.

Lemma isIgnored_exit_1 (err : exec_error) :
  code err = VNum 1 →
  strict_eq (isIgnored_after (ExecErr err)) VUndefined
  || strict_eq (isIgnored_after (ExecErr err)) (VBool true) = false.
Proof. unfold isIgnored_after. by intros ->. Qed.

Lemma isIgnored_other (err : exec_error) :
  code err ≠ VNum 1 →
  strict_eq (isIgnored_after (ExecErr err)) VUndefined
  || strict_eq (isIgnored_after (ExecErr err)) (VBool true) = true.
Proof.
  intros Hcode. unfold isIgnored_after.
  destruct (strict_eq (code err) (VNum 1)) eqn:E.
  - by apply strict_eq_true in E.
  - cbn. by destruct (strict_eq (code err) VUndefined).
Qed.

(** [send] run to its end on variables that hold a controller: the
    request goes out with the signal of that controller. *)
Lemma run_send (w : world) (target token : jsstring) (body : json_object)
    (signal : nat) (g : global) :
  updateStateAbortController g = Some signal →
  ∃ g' calls,
    run w (send target token body) g
      = (g', inl tt,
         CallFetch (mkRequest target (str "POST") (str "Bearer " ++ token)
                              (str "application/json") body signal) :: calls)
    ∧ same_session g g'.
Proof.
  intros Hc. unfold send. cbn [mbind task_mbind task_bind gets run]. rewrite Hc.
  cbn.
  match goal with |- context [on_fetch w ?req] =>
    destruct (on_fetch w req) as [[|]|text] end; cbn.
  - do 2 eexists. split; [done|apply same_session_refl].
  - destruct (on_text w); cbn; do 2 eexists; (split; [done|apply same_session_chan]).
  - do 2 eexists. split; [done|apply same_session_chan].
Qed.

Lemma run_current_signal (w : world) (signal : nat) (g : global) :
  updateStateAbortController g = Some signal →
  run w current_signal g = (g, inl signal, []).
Proof. intros Hc. cbn. by rewrite Hc. Qed.

Lemma run_modify (w : world) (f : global → global) (g : global) :
  run w (modify f) g = (f g, inl tt, []).
Proof. done. Qed.

Lemma run_appendLine (w : world) (text : jsstring) (g : global) :
  run w (appendLine text) g = (set_chan (fun lines => lines ++ [text]) g, inl tt, []).
Proof. done. Qed.

Lemma run_pollState_report (w : world) (target token : jsstring) (vs : vscode)
    (ed : TextEditor) (cur : State) (g : global) :
  is_Some (updateStateAbortController g) →
  ∃ g' calls req,
    run w (Part000.pollState_report dirname target token vs ed cur) g
      = (g', inl tt, calls)
    ∧ ignoredFiles g' = ignoredFiles g
    ∧ CallFetch req ∈ calls.
Proof.
  intros [signal Hc]. unfold Part000.pollState_report.
  rewrite run_bind, (run_current_signal _ _ _ Hc), run_bind.
  destruct (run_findGitHubURL w (workspace_name vs) (doc_fileName ed) signal g)
    as (g1 & repository & calls1 & -> & Hi1 & Hp1 & Hc1 & Hl1).
  rewrite run_bind, run_modify, run_bind, run_appendLine.
  match goal with |- context [run w (send ?t ?k ?b) ?g0] =>
    destruct (run_send w t k b signal g0) as (g2 & calls2 & -> & Hi2 & _)
  end; [unfold set_chan, set_prevState; cbn; congruence|].
  do 3 eexists. split; [done|].
  split; [unfold set_chan, set_prevState in Hi2; cbn in Hi2; congruence|].
  cbn [app]. apply elem_of_app. right. apply list_elem_of_here.
Qed.

(** ** The request of a tick *)

(** The request [send] makes: it goes out on the variables [send] was
    started on, with the signal of their controller. *)
Lemma send_sends (target token : jsstring) (body : json_object) (g : global)
    (req : request) (g' : global) :
  sends (send target token body) g req g' →
  g' = g
  ∧ ∃ signal,
      updateStateAbortController g = Some signal
      ∧ req = mkRequest target (str "POST") (str "Bearer " ++ token)
                        (str "application/json") body signal.
Proof.
  intros Hs. apply sends_inv in Hs. unfold send in Hs. cbn in Hs.
  destruct (updateStateAbortController g) as [signal|]; cbn in Hs; [|done].
  destruct Hs as [[<- <-]|(r & g2 & Hs)]; [by eauto|].
  exfalso. revert Hs. apply no_fetch_sends.
  destruct r as [[|]|text]; cbn; try done.
  intros [message|text]; by cbn.
Qed.

(** The request of the report of [part_000]: at the moment of the [fetch]
    call the snapshot is the last state already, and the body is the
    object literal of the snapshot and of what the resolver returned. *)
Lemma pollState_report_sends (target token : jsstring) (vs : vscode)
    (ed : TextEditor) (cur : State) (g : global) (req : request) (g' : global) :
  sends (Part000.pollState_report dirname target token vs ed cur) g req g' →
  prevState g' = cur
  ∧ ∃ signal g0 repository g1,
      returns (Part000.findGitHubURL dirname (workspace_name vs) (doc_fileName ed) signal)
              g0 repository g1
      ∧ req_body req
        = JSON_stringify
            (obj_spread [("repository"%string, Part000.repository_value repository)]
                        (State_obj cur)).
Proof.
  unfold Part000.pollState_report. intros Hs.
  apply sends_bind in Hs as [(signal & g1 & _ & Hs)|Hn];
    [|by destruct Hn; apply current_signal_no_fetch].
  apply sends_bind in Hs as [(repository & g2 & Hret & Hs)|Hn];
    [|by destruct Hn; apply findGitHubURL_no_fetch].
  eapply (sends_run_sync _ (send target token _) _
            (set_chan (fun lines => lines ++ [str "Updating state"])
                      (set_prevState cur g2))) in Hs; [|done].
  apply send_sends in Hs as (-> & signal' & _ & ->).
  split; [done|]. by exists signal, g1, repository, g2.
Qed.




(** ** The first segment of a tick *)

Lemma controllers_abort_current (g : global) :
  controllers (abort_current g)
  = match updateStateAbortController g with
    | Some i => <[i:=true]> (controllers g)
    | None => controllers g
    end.
Proof. unfold abort_current. by destruct (updateStateAbortController g). Qed.

Lemma length_controllers_abort_current (g : global) :
  length (controllers (abort_current g)) = length (controllers g).
Proof.
  rewrite controllers_abort_current.
  destruct (updateStateAbortController g); [apply length_insert|done].
Qed.

Lemma passed_gates_fields (g : global) :
  ignoredFiles (passed_gates g) = ignoredFiles g
  ∧ knownGitHubs (passed_gates g) = knownGitHubs g
  ∧ prevState (passed_gates g) = prevState g
  ∧ updateStateAbortController (passed_gates g) = Some (length (controllers g))
  ∧ controllers (passed_gates g) = controllers (abort_current g) ++ [false].
Proof.
  unfold passed_gates, install_controller. cbn.
  rewrite length_controllers_abort_current.
  unfold abort_current, set_chan; cbn.
  by destruct (updateStateAbortController g).
Qed.

Lemma accepted_fields (cur : State) (g : global) :
  ignoredFiles (accepted cur g) = ignoredFiles g
  ∧ knownGitHubs (accepted cur g) = knownGitHubs g
  ∧ prevState (accepted cur g) = cur
  ∧ updateStateAbortController (accepted cur g) = Some (length (controllers g))
  ∧ controllers (accepted cur g) = controllers (abort_current g) ++ [false].
Proof.
  unfold accepted, install_controller. cbn.
  rewrite length_controllers_abort_current.
  unfold abort_current, set_chan, set_prevState; cbn.
  by destruct (updateStateAbortController g).
Qed.

(** The first segment of a tick of [part_000], gate by gate. *)
Lemma Part000_first_segment (target token : jsstring) (vs : vscode) (cur : State)
    (g : global) :
  capture vs = inl cur →
  ∃ ed,
    activeTextEditor vs = Some ed
    ∧ run_sync (Part000.pollState dirname target token vs) g =
        if shallowEqual (State_obj (prevState g)) (State_obj cur) then (g, Finished tt)
        else if bool_decide (fileName cur ∈ ignoredFiles g) then
          (set_chan (fun lines =>
                       lines ++ [fileName cur ++ str " is ignored (looked up from cache)"])
                    (set_chan (fun lines => lines ++ [str "not equal"]) g),
           Finished tt)
        else if negb (strict_eq (VStr (fileName (prevState g))) (VStr (fileName cur))) then
          (passed_gates g,
           AwaitExec (check_ignore_cmd (fileName cur)) (dirname (fileName cur))
             (length (controllers g))
             (fun r =>
                if strict_eq (isIgnored_after r) VUndefined
                   || strict_eq (isIgnored_after r) (VBool true)
                then
                  appendLine (fileName cur ++ str " is ignored");;
                  modify (set_ignoredFiles (fun files => {[fileName cur]} ∪ files))
                else Part000.pollState_report dirname target token vs ed cur))
        else
          run_sync (Part000.pollState_report dirname target token vs ed cur)
                   (passed_gates g).
Proof.
  unfold capture, Part000.pollState. intros Hcap.
  destruct (activeTextEditor vs) as [ed|]; [|done].
  destruct (getViewRange _ _) as [viewRange|]; [|done].
  injection Hcap as <-. exists ed. split; [done|].
  destruct (passed_gates_fields g) as (_ & _ & Hp & Hc & _).
  cbn -[elem_of].
  destruct (shallowEqual _ _); [done|]. cbn -[elem_of].
  destruct (bool_decide _); [done|]. cbn.
  change (install_controller (abort_current (set_chan _ g))) with (passed_gates g).
  rewrite Hp.
  destruct (negb _); [|done]. cbn. by rewrite Hc.
Qed.

(** The first segment of a tick of [extension.js], gate by gate. *)
Lemma ExtensionJs_first_segment (target token : jsstring) (vs : vscode) (cur : State)
    (g : global) :
  capture vs = inl cur →
  run_sync (ExtensionJs.pollState dirname target token vs) g =
    if shallowEqual (State_obj (prevState g)) (State_obj cur) then (g, Finished tt)
    else if bool_decide (fileName cur ∈ ignoredFiles g) then
      (set_chan (fun lines =>
                   lines ++ [fileName cur ++ str " is ignored (looked up from cache)"])
                (accepted cur g),
       Finished tt)
    else if negb (strict_eq (VStr (fileName (prevState g))) (VStr (fileName cur))) then
      (accepted cur g,
       AwaitExec (check_ignore_cmd (fileName cur)) (dirname (fileName cur))
         (length (controllers g))
         (fun r =>
            if strict_eq (isIgnored_after r) VUndefined
               || strict_eq (isIgnored_after r) (VBool true)
            then
              appendLine (fileName cur ++ str " is ignored");;
              modify (set_ignoredFiles (fun files => {[fileName cur]} ∪ files))
            else send target token (JSON_stringify (State_obj cur))))
    else
      run_sync (send target token (JSON_stringify (State_obj cur))) (accepted cur g).
Proof.
  unfold capture, ExtensionJs.pollState. intros Hcap.
  destruct (activeTextEditor vs) as [ed|]; [|done].
  destruct (getViewRange _ _) as [viewRange|]; [|done].
  injection Hcap as <-.
  destruct (accepted_fields (mkState (workspace_name vs) (doc_fileName ed)
              (doc_languageId ed) (line (sel_active ed)) (character (sel_active ed))
              (doc_getText ed viewRange)) g) as (Hi & _ & _ & Hc & _).
  cbn -[elem_of].
  destruct (shallowEqual _ _); [done|]. cbn -[elem_of].
  match goal with |- context [install_controller ?x] =>
    change (install_controller x) with
      (accepted (mkState (workspace_name vs) (doc_fileName ed)
              (doc_languageId ed) (line (sel_active ed)) (character (sel_active ed))
              (doc_getText ed viewRange)) g) end.
  rewrite Hi.
  destruct (bool_decide _); [done|]. cbn.
  destruct (negb _); [|done]. cbn. by rewrite Hc.
Qed.

(** A tick of [part_000] that sends a request has taken a snapshot, and
    the request is the one of its report; on the file of the last state
    the report starts in the first segment of the tick, once the two gates
    are passed. *)
Lemma Part000_pollState_reports (target token : jsstring) (vs : vscode) (g : global)
    (req : request) (g' : global) :
  sends (Part000.pollState dirname target token vs) g req g' →
  ∃ cur ed g0,
    capture vs = inl cur
    ∧ workspace_name vs = workspace cur
    ∧ doc_fileName ed = fileName cur
    ∧ (fileName (prevState g) = fileName cur → g0 = passed_gates g)
    ∧ sends (Part000.pollState_report dirname target token vs ed cur) g0 req g'.
Proof.
  intros Hs. destruct (capture vs) as [cur|e] eqn:Hcap.
  - destruct (Part000_first_segment target token vs cur g Hcap) as (ed & Hed & Hrun).
    exists cur, ed.
    assert (Hfields : workspace_name vs = workspace cur ∧ doc_fileName ed = fileName cur).
    { unfold capture in Hcap. rewrite Hed in Hcap.
      destruct (getViewRange _ _); [|done]. by injection Hcap as <-. }
    destruct Hfields as [Hw Hf].
    destruct (shallowEqual _ _).
    { apply sends_inv in Hs. by rewrite Hrun in Hs. }
    destruct (bool_decide _).
    { apply sends_inv in Hs. by rewrite Hrun in Hs. }
    destruct (negb _) eqn:Hdid.
    + apply sends_inv in Hs. rewrite Hrun in Hs. destruct Hs as (r & g2 & Hs).
      destruct (strict_eq _ _ || strict_eq _ _).
      { exfalso. revert Hs. apply no_fetch_sends. by intros g0. }
      exists g2. repeat split; [done..| |done].
      intros Hsame. rewrite Hsame, strict_eq_refl in Hdid. discriminate.
    + exists (passed_gates g). repeat split; [done..|].
      by eapply sends_run_sync.
  - exfalso. apply sends_inv in Hs. revert Hs Hcap.
    unfold Part000.pollState, capture.
    destruct (activeTextEditor vs) as [ed|]; [|done].
    by destruct (getViewRange _ _).
Qed.

Lemma Part000_pollState_sends (target token : jsstring) (vs : vscode) (g : global)
    (req : request) (g' : global) :
  sends (Part000.pollState dirname target token vs) g req g' →
  ∃ cur ed g0,
    capture vs = inl cur
    ∧ workspace_name vs = workspace cur
    ∧ doc_fileName ed = fileName cur
    ∧ sends (Part000.pollState_report dirname target token vs ed cur) g0 req g'.
Proof.
  intros Hs.
  destruct (Part000_pollState_reports _ _ _ _ _ _ Hs)
    as (cur & ed & g0 & Hcap & Hw & Hf & _ & Hr).
  by exists cur, ed, g0.
Qed.

(** ** The last reported state *)

(** While a tick of [part_000] waits for the ignore check, the variable
    [prevState] still holds the state of the tick before: the snapshot is
    stored after the resolver has returned. *)
Remark prevState_during_ignore_check (target token : jsstring) (vs : vscode)
    (cur : State) (g : global) :
  capture vs = inl cur →
  fileName (prevState g) ≠ fileName cur →
  fileName cur ∉ ignoredFiles g →
  ∃ g1 signal k,
    run_sync (Part000.pollState dirname target token vs) g
      = (g1, AwaitExec (check_ignore_cmd (fileName cur)) (dirname (fileName cur))
                       signal k)
    ∧ prevState g1 = prevState g.
Proof.
  intros Hcap Hfile Hfresh.
  destruct (Part000_first_segment target token vs cur g Hcap) as (ed & _ & Hrun).
  destruct (changed_file _ _ Hfile) as [Hne Hdid].
  rewrite Hne, Hdid, bool_decide_eq_false_2 in Hrun by done.
  do 3 eexists. split; [exact Hrun|]. apply passed_gates_fields.
Qed.

(** C8: when a tick of [part_000] makes its [fetch] call, the variable
    [prevState] holds the snapshot of the tick already, before any answer
    to the call; from then on, as long as [prevState] is not written again,
    a tick that takes an equal snapshot ends at the gate of the unchanged
    state: it makes no call and changes no variable. *)
Theorem prevState_before_send (target token : jsstring) (vs : vscode) (g : global)
    (req : request) (g' : global) :
  sends (Part000.pollState dirname target token vs) g req g' →
  ∃ cur,
    capture vs = inl cur
    ∧ prevState g' = cur
    ∧ ∀ g'' target' token' vs',
        prevState g'' = prevState g' →
        capture vs' = inl cur →
        run_sync (Part000.pollState dirname target' token' vs') g''
          = (g'', Finished tt).
Proof.
  intros Hs.
  destruct (Part000_pollState_sends _ _ _ _ _ _ Hs)
    as (cur & ed & g0 & Hcap & _ & _ & Hr).
  apply pollState_report_sends in Hr as [Hprev _].
  exists cur. split; [done|]. split; [done|].
  intros g'' target' token' vs' Hsame Hcap'.
  destruct (Part000_first_segment target' token' vs' cur g'' Hcap') as (ed' & _ & ->).
  by rewrite Hsame, Hprev, (proj2 (shallowEqual_State cur cur) eq_refl).
Qed.

(** ** The body of a report *)


(** ** The ignore check of a tick *)

Lemma record_ignored_suppressed (file : jsstring) :
  suppressed_as_ignored file
    (appendLine (file ++ str " is ignored");;
     modify (set_ignoredFiles (fun files => {[file]} ∪ files))).
Proof. intros g. by eexists. Qed.

Lemma send_goes_on_to_report (target token : jsstring) (body : json_object) :
  goes_on_to_report (send target token body).
Proof.
  intros w g [signal Hc].
  destruct (run_send w target token body signal g Hc) as (g' & calls & Hrun & Hi & _).
  do 3 eexists. split; [exact Hrun|]. split; [done|]. apply list_elem_of_here.
Qed.

Lemma pollState_report_goes_on_to_report (target token : jsstring) (vs : vscode)
    (ed : TextEditor) (cur : State) :
  goes_on_to_report (Part000.pollState_report dirname target token vs ed cur).
Proof. intros w g Hc. by apply run_pollState_report. Qed.

Lemma Part000_ignore_check (target token : jsstring) :
  ignore_check_policy dirname (Part000.pollState dirname target token).
Proof.
  intros vs cur g Hcap Hfile Hfresh.
  destruct (Part000_first_segment target token vs cur g Hcap) as (ed & _ & Hrun).
  destruct (changed_file _ _ Hfile) as [Hne Hdid].
  rewrite Hne, Hdid, bool_decide_eq_false_2 in Hrun by done.
  do 3 eexists. split; [exact Hrun|]. cbv beta. repeat split.
  - intros stdout. rewrite isIgnored_exit_0. apply record_ignored_suppressed.
  - intros err Hcode. rewrite isIgnored_exit_1 by done.
    apply pollState_report_goes_on_to_report.
  - intros err Hcode. rewrite isIgnored_other by done.
    apply record_ignored_suppressed.
Qed.

Lemma ExtensionJs_ignore_check (target token : jsstring) :
  ignore_check_policy dirname (ExtensionJs.pollState dirname target token).
Proof.
  intros vs cur g Hcap Hfile Hfresh.
  pose proof (ExtensionJs_first_segment target token vs cur g Hcap) as Hrun.
  destruct (changed_file _ _ Hfile) as [Hne Hdid].
  rewrite Hne, Hdid, bool_decide_eq_false_2 in Hrun by done.
  do 3 eexists. split; [exact Hrun|]. cbv beta. repeat split.
  - intros stdout. rewrite isIgnored_exit_0. apply record_ignored_suppressed.
  - intros err Hcode. rewrite isIgnored_exit_1 by done.
    apply send_goes_on_to_report.
  - intros err Hcode. rewrite isIgnored_other by done.
    apply record_ignored_suppressed.
Qed.

(** C1: in both revisions, when a tick runs the ignore check, the answer
    of the command is read from its exit code: on exit code 0 the file is
    ignored, on exit code 1 it is not, and on every other outcome (another
    exit code, no exit code, a command that could not run) it is ignored;
    whenever the file is ignored its path is added to the set of ignored
    files and the tick ends without a report. *)
Theorem ignore_check_exit_code (target token : jsstring) :
  ignore_check_policy dirname (Part000.pollState dirname target token)
  ∧ ignore_check_policy dirname (ExtensionJs.pollState dirname target token).
Proof. split; [apply Part000_ignore_check | apply ExtensionJs_ignore_check]. Qed.

(** ** The gates and the cancellation handle *)

(** C10: in [part_000], a tick that ends at the gate of the unchanged
    state or at the gate of the ignored files ends in its first segment
    with the variable [updateStateAbortController] and every controller as
    they were; a tick that passes both gates aborts the controller of the
    variable, if there is one, and installs a new controller. *)
Theorem gates_leave_controller (target token : jsstring) (vs : vscode) (cur : State)
    (g : global) :
  capture vs = inl cur →
  (changed (prevState g) cur = false ∨ fileName cur ∈ ignoredFiles g →
   ∃ g1,
     run_sync (Part000.pollState dirname target token vs) g = (g1, Finished tt)
     ∧ updateStateAbortController g1 = updateStateAbortController g
     ∧ controllers g1 = controllers g)
  ∧ (changed (prevState g) cur = true → fileName cur ∉ ignoredFiles g →
     ∃ g1 st,
       run_sync (Part000.pollState dirname target token vs) g = (g1, st)
       ∧ updateStateAbortController g1 = Some (length (controllers g))
       ∧ controllers g1
         = match updateStateAbortController g with
           | Some i => <[i:=true]> (controllers g)
           | None => controllers g
           end ++ [false]).
Proof.
  intros Hcap.
  destruct (Part000_first_segment target token vs cur g Hcap) as (ed & _ & Hrun).
  unfold changed. split.
  - intros Hgate. rewrite Hrun.
    destruct (shallowEqual _ _); [by eexists|].
    destruct Hgate as [Hgate|Hgate]; [done|].
    rewrite bool_decide_eq_true_2 by done. by eexists.
  - intros Hch%negb_true_iff Hfresh. rewrite Hrun, Hch.
    rewrite bool_decide_eq_false_2 by done.
    destruct (passed_gates_fields g) as (_ & _ & _ & Hc & Hl).
    rewrite controllers_abort_current in Hl.
    assert (Hkeep : ∀ g0 g1 (st : status unit),
      run_sync (Part000.pollState_report dirname target token vs ed cur) g0 = (g1, st) →
      updateStateAbortController g0 = Some (length (controllers g)) →
      updateStateAbortController g1 = updateStateAbortController g0
      ∧ controllers g1 = controllers g0).
    { intros g0 g1 st Hr Hc0. unfold Part000.pollState_report in Hr.
      rewrite run_sync_bind in Hr. cbn in Hr. rewrite Hc0 in Hr. cbn in Hr.
      rewrite run_sync_bind in Hr. unfold Part000.findGitHubURL in Hr.
      cbn in Hr. destruct (knownGitHubs g0 !! workspace_name vs).
      - cbn in Hr. unfold send in Hr. cbn in Hr.
        unfold set_chan, set_prevState in Hr; cbn in Hr. rewrite Hc0 in Hr.
        cbn in Hr. by injection Hr as <- <-.
      - cbn in Hr. by injection Hr as <- <-. }
    destruct (negb _).
    + do 2 eexists. split; [done|]. by rewrite Hc, Hl.
    + destruct (run_sync _ (passed_gates g)) as [g1 st] eqn:Hr.
      destruct (Hkeep _ _ _ Hr Hc) as [Hc1 Hl1].
      do 2 eexists. split; [done|]. by rewrite Hc1, Hl1, Hc, Hl.
Qed.

End Pipeline.

(** ** The theorems at sample inputs *)

Lemma getGitRemotes_empty_output_witness :
  (run (printing []) (Part000.getGitRemotes (str "C:\proj") 0) initial).1.2 = inl [[]]
  ∧ (run (printing [])
         (Part000.findGitHubURL sample_dirname (Some (str "proj")) (str "C:\proj\a.js") 0)
         initial).2
    = [CallExec (str "git remote") (str "C:\proj") 0;
       CallExec (str "git remote get-url --all " ++ []) (str "C:\proj") 0].
Proof.
  destruct (proj1 (getGitRemotes_empty_output sample_dirname (printing [])
                     (str "C:\proj") 0 initial)
              [] eq_refl eq_refl) as [Hnames Hcalls].
  split; [exact Hnames|].
  apply Hcalls; reflexivity.
Defined.

Lemma ignore_check_exit_code_witness :
  ∃ g1 signal k,
    run_sync (Part000.pollState sample_dirname (str "http://localhost/report")
                                (str "secret") sample_vscode) initial
      = (g1, AwaitExec (check_ignore_cmd (str "C:\proj\a.js")) (str "C:\proj") signal k)
    ∧ (∀ stdout, suppressed_as_ignored (str "C:\proj\a.js") (k (ExecOk stdout)))
    ∧ (∀ err, code err = VNum 1 → goes_on_to_report (k (ExecErr err)))
    ∧ (∀ err, code err ≠ VNum 1 →
         suppressed_as_ignored (str "C:\proj\a.js") (k (ExecErr err))).
Proof.
  apply (proj1 (ignore_check_exit_code sample_dirname (str "http://localhost/report")
                  (str "secret")) sample_vscode sample_State initial).
  - reflexivity.
  - vm_compute. discriminate.
  - apply not_elem_of_empty.
Defined.

Lemma findGitHubURL_absent_not_cached_witness :
  ∃ g1 calls,
    run gitlab_world
        (Part000.findGitHubURL sample_dirname (Some (str "proj")) (str "C:\proj\a.js") 0)
        initial
      = (g1, inl None, calls)
    ∧ knownGitHubs g1 = knownGitHubs initial
    ∧ ∀ w' signal', ∃ g2 r calls',
        run w' (Part000.findGitHubURL sample_dirname (Some (str "proj"))
                                      (str "C:\proj\a.js") signal') g1
          = (g2, r, CallExec (str "git remote") (sample_dirname (str "C:\proj\a.js"))
                             signal' :: calls').
Proof.
  apply (findGitHubURL_absent_not_cached sample_dirname gitlab_world (Some (str "proj"))
           (str "C:\proj\a.js") 0 initial).
  - reflexivity.
  - vm_compute. reflexivity.
Defined.

(** C2, as the claim states it, fails on a checkout whose only remote is
    on GitLab: the resolution returns [undefined], the cache has no entry
    for the workspace afterwards, and the second resolution makes two
    external calls, the enumeration and the lookup of [origin]. *)
Lemma findGitHubURL_absent_reprobed :
  ∃ g1 calls,
    run gitlab_world
        (Part000.findGitHubURL sample_dirname (Some (str "proj")) (str "C:\proj\a.js") 0)
        initial
      = (g1, inl None, calls)
    ∧ knownGitHubs g1 !! Some (str "proj") = None
    ∧ (run gitlab_world
           (Part000.findGitHubURL sample_dirname (Some (str "proj")) (str "C:\proj\a.js") 1)
           g1).2
      = [CallExec (str "git remote") (str "C:\proj") 1;
         CallExec (str "git remote get-url --all origin") (str "C:\proj") 1].
Proof.
  do 2 eexists. split; [vm_compute; reflexivity|].
  split; vm_compute; reflexivity.
Qed.

Lemma gates_leave_controller_witness :
  (changed (prevState cached_session) sample_State = false
   ∨ fileName sample_State ∈ ignoredFiles cached_session →
   ∃ g1,
     run_sync (Part000.pollState sample_dirname (str "http://localhost/report")
                                 (str "secret") sample_vscode) cached_session
       = (g1, Finished tt)
     ∧ updateStateAbortController g1 = updateStateAbortController cached_session
     ∧ controllers g1 = controllers cached_session)
  ∧ (changed (prevState cached_session) sample_State = true →
     fileName sample_State ∉ ignoredFiles cached_session →
     ∃ g1 st,
       run_sync (Part000.pollState sample_dirname (str "http://localhost/report")
                                   (str "secret") sample_vscode) cached_session
         = (g1, st)
       ∧ updateStateAbortController g1 = Some (length (controllers cached_session))
       ∧ controllers g1
         = match updateStateAbortController cached_session with
           | Some i => <[i:=true]> (controllers cached_session)
           | None => controllers cached_session
           end ++ [false]).
Proof.
  apply (gates_leave_controller sample_dirname (str "http://localhost/report")
           (str "secret") sample_vscode sample_State cached_session).
  reflexivity.
Defined.

(** The request of the sample tick on [cached_session] and the variables
    at the moment it is sent. *)
Lemma sample_tick_sends :
  ∃ req g',
    sends (Part000.pollState sample_dirname (str "http://localhost/report")
                             (str "secret") sample_vscode)
          cached_session req g'.
Proof. do 2 eexists. eapply sends_now. vm_compute. reflexivity. Defined.

Lemma prevState_before_send_witness :
  ∃ req g',
    sends (Part000.pollState sample_dirname (str "http://localhost/report")
                             (str "secret") sample_vscode)
          cached_session req g'
    ∧ ∃ cur,
        capture sample_vscode = inl cur
        ∧ prevState g' = cur
        ∧ ∀ g'' target' token' vs',
            prevState g'' = prevState g' →
            capture vs' = inl cur →
            run_sync (Part000.pollState sample_dirname target' token' vs') g''
              = (g'', Finished tt).
Proof.
  destruct sample_tick_sends as (req & g' & Hs).
  exists req, g'. split; [exact Hs|].
  exact (prevState_before_send sample_dirname _ _ _ _ _ _ Hs).
Defined.



(** * Further properties of the code *)

(** ** The view window, on every input *)

(** The range of a document of fewer than eleven lines. *)
Lemma getViewRange_whole (activeLine lineCount : Z) :
  0 ≤ lineCount < 11 →
  getViewRange activeLine lineCount
  = Some (mkRange (mkPosition 0 0) (mkPosition lineCount 0)).
Proof.
  intros HN. unfold getViewRange.
  destruct (Z.ltb_spec lineCount (5 * 2 + 1)); [|lia].
  unfold Position_new.
  destruct (Z.ltb_spec lineCount 0); [lia|]. cbn.
  rewrite Range_new_ordered; [done|].
  unfold Position_isBefore; cbn.
  destruct (Z.ltb_spec lineCount 0); [lia|]. by rewrite andb_false_r.
Qed.

(** X1: [getViewRange] throws exactly when the line count is negative;
    for a line count of zero or more it returns a range for every cursor
    line, also one outside the document: the range is in document order,
    its two positions are at column 0 and its lines lie in
    [[0, lineCount]]. *)
Theorem getViewRange_total (activeLine lineCount : Z) :
  (getViewRange activeLine lineCount = None ↔ lineCount < 0)
  ∧ (0 ≤ lineCount →
     ∃ r, getViewRange activeLine lineCount = Some r
          ∧ Position_isBeforeOrEqual (range_start r) (range_end r) = true
          ∧ 0 ≤ line (range_start r)
          ∧ line (range_end r) ≤ lineCount
          ∧ character (range_start r) = 0 ∧ character (range_end r) = 0).
Proof.
  destruct (Z.lt_ge_cases lineCount 0) as [Hneg|Hpos].
  - split; [|lia]. split; [done|]. intros _. unfold getViewRange.
    destruct (Z.ltb_spec lineCount (5 * 2 + 1)); [|lia].
    unfold Position_new. destruct (Z.ltb_spec lineCount 0); [|lia]. by cbn.
  - assert (Hsome : ∃ r, getViewRange activeLine lineCount = Some r
          ∧ Position_isBeforeOrEqual (range_start r) (range_end r) = true
          ∧ 0 ≤ line (range_start r)
          ∧ line (range_end r) ≤ lineCount
          ∧ character (range_start r) = 0 ∧ character (range_end r) = 0).
    { destruct (Z.lt_ge_cases lineCount 11) as [Hshort|Hlong].
      - rewrite getViewRange_whole by lia.
        eexists. split; [done|]. lines_in_range. lia.
      - rewrite getViewRange_long by lia.
        eexists. split; [done|]. unfold viewStart. lines_in_range. lia. }
    split; [|done]. destruct Hsome as (r & -> & _). split; [done|lia].
Qed.

Lemma getViewRange_total_witness :
  ∃ r, getViewRange 99 7 = Some r
       ∧ Position_isBeforeOrEqual (range_start r) (range_end r) = true
       ∧ 0 ≤ line (range_start r)
       ∧ line (range_end r) ≤ 7
       ∧ character (range_start r) = 0 ∧ character (range_end r) = 0.
Proof. apply (proj2 (getViewRange_total 99 7)). lia. Defined.



(** X3: the text of the window of a document of at least eleven lines.
    The range ends at column 0 of its last line, so the lines that lie in
    it with their line break are the ten lines from its start line on; the
    line of the cursor is one of them unless the cursor is on the last line
    of the document. *)
Theorem window_text (activeLine lineCount : Z) :
  11 ≤ lineCount →
  ∃ r, getViewRange activeLine lineCount = Some r
       ∧ (∀ i, Range_containsLine r i = true
               ↔ line (range_start r) ≤ i < line (range_start r) + 10)
       ∧ (0 ≤ activeLine < lineCount →
          Range_containsLine r activeLine = true ↔ activeLine < lineCount - 1).
Proof.
  intros HN. eexists. split; [by apply getViewRange_long|].
  unfold viewStart. split; [intros i|intros HL]; lines_in_range; lia.
Qed.

Lemma window_text_witness :
  ∃ r, getViewRange 41 42 = Some r
       ∧ (∀ i, Range_containsLine r i = true
               ↔ line (range_start r) ≤ i < line (range_start r) + 10)
       ∧ (0 ≤ 41 < 42 → Range_containsLine r 41 = true ↔ 41 < 42 - 1).
Proof. apply (window_text 41 42). lia. Defined.

(** ** The change detector, on every pair of States *)

(** X4: the change detector answers true exactly when at least one of the
    six fields differs, whatever the number of fields that differ. *)
Theorem changed_iff_a_field_differs (s1 s2 : State) :
  changed s1 s2 = true
  ↔ workspace s1 ≠ workspace s2 ∨ fileName s1 ≠ fileName s2
    ∨ language s1 ≠ language s2 ∨ row s1 ≠ row s2 ∨ col s1 ≠ col s2
    ∨ viewChunk s1 ≠ viewChunk s2.
Proof.
  rewrite changed_true_iff.
  destruct s1 as [w1 f1 l1 r1 c1 v1], s2 as [w2 f2 l2 r2 c2 v2]; cbn.
  split.
  - intros Hne.
    destruct (decide (w1 = w2)) as [->|]; [|by auto].
    destruct (decide (f1 = f2)) as [->|]; [|by auto].
    destruct (decide (l1 = l2)) as [->|]; [|by auto].
    destruct (decide (r1 = r2)) as [->|]; [|by auto 6].
    destruct (decide (c1 = c2)) as [->|]; [|by auto 6].
    destruct (decide (v1 = v2)) as [->|]; [done|by auto 7].
  - intros [H|[H|[H|[H|[H|H]]]]] [= Hw Hf Hl Hr Hc Hv]; done.
Qed.

(** ** The rewriting of a GitHub URL *)

Lemma startsWith_app (pat s : jsstring) : startsWith (pat ++ s) pat = true.
Proof.
  induction pat as [|p pat IH]; [by destruct s|]. cbn. by rewrite N.eqb_refl, IH.
Qed.

(** [replace] with the pattern in front. *)
Lemma replace_prefix (pat rep s : jsstring) :
  replace (pat ++ s) pat rep = rep ++ s.
Proof.
  destruct pat as [|p pat]; [by destruct s|].
  cbn [app replace]. change (p :: pat ++ s) with ((p :: pat) ++ s).
  rewrite startsWith_app. by rewrite drop_app_length.
Qed.

(** [replace] skips a character at which the pattern does not start. *)
Lemma replace_skip (c : N) (s pat rep : jsstring) :
  startsWith (c :: s) pat = false →
  replace (c :: s) pat rep = c :: replace s pat rep.
Proof. intros H. cbn [replace]. by rewrite H. Qed.

(** [.git] starts inside [s ++ ".git"] only where it starts in [s]. *)
Lemma startsWith_dot_git_app (s : jsstring) :
  s ≠ [] →
  startsWith (s ++ str ".git") (str ".git") = startsWith s (str ".git").
Proof.
  intros Hs. destruct s as [|c1 [|c2 [|c3 [|c4 s]]]]; [done|..]; cbn.
  - destruct (N.eqb_spec c1 46); [subst; reflexivity|done].
  - destruct (N.eqb_spec c1 46); [|done].
    destruct (N.eqb_spec c2 103); [subst; reflexivity|done].
  - destruct (N.eqb_spec c1 46); [|done].
    destruct (N.eqb_spec c2 103); [|done].
    destruct (N.eqb_spec c3 105); [subst; reflexivity|done].
  - destruct s; destruct (c1 =? 46)%N, (c2 =? 103)%N, (c3 =? 105)%N, (c4 =? 116)%N; done.
Qed.

(** A [.git] suffix is the one [replace] removes when no [.git] comes
    before it. *)
Lemma replace_dot_git_suffix (s : jsstring) :
  contains s (str ".git") = false →
  replace (s ++ str ".git") (str ".git") [] = s.
Proof.
  induction s as [|c s IH]; [done|].
  cbn [contains]. intros [Hc Hs]%orb_false_iff.
  change ((c :: s) ++ str ".git") with (c :: (s ++ str ".git")).
  rewrite replace_skip; [by rewrite IH|].
  change (c :: (s ++ str ".git")) with ((c :: s) ++ str ".git").
  by rewrite startsWith_dot_git_app.
Qed.

Lemma replace_absent (s pat rep : jsstring) :
  contains s pat = false → replace s pat rep = s.
Proof.
  induction s as [|c s IH]; cbn [contains replace].
  - by intros [-> _]%orb_false_iff.
  - intros [-> Hs]%orb_false_iff. by rewrite IH.
Qed.

(** The HTTPS prefix holds no [.git], alone or with what follows it. *)
Lemma replace_after_https (s : jsstring) :
  replace (str "https://github.com/" ++ s) (str ".git") []
  = str "https://github.com/" ++ replace s (str ".git") [].
Proof.
  change (str "https://github.com/") with
    ([104; 116; 116; 112; 115; 58; 47; 47; 103; 105; 116; 104; 117; 98; 46;
      99; 111; 109; 47]%N : jsstring).
  cbn [app]. by do 19 (rewrite replace_skip by reflexivity).
Qed.

(** X5: the SSH URL of a GitHub repository, [git@github.com:] followed by
    a path that holds no [.git], is rewritten to [https://github.com/]
    followed by the path, whether the URL ends in [.git] or not. *)
Theorem getGitRemoteURL_urls_github (path : jsstring) :
  contains path (str ".git") = false →
  Part000.getGitRemoteURL_urls [str "git@github.com:" ++ path ++ str ".git"]
  = Some (str "https://github.com/" ++ path)
  ∧ Part000.getGitRemoteURL_urls [str "git@github.com:" ++ path]
    = Some (str "https://github.com/" ++ path).
Proof.
  intros Hpath.
  assert (Hshape : ∀ s, startsWith (str "git@github.com:" ++ s) (str "git@github.com")
                        = true) by done.
  cbn [Part000.getGitRemoteURL_urls]. rewrite !Hshape, !replace_prefix.
  rewrite !replace_after_https.
  by rewrite replace_dot_git_suffix, replace_absent.
Qed.

Lemma getGitRemoteURL_urls_github_witness :
  Part000.getGitRemoteURL_urls [str "git@github.com:" ++ str "tifye/vscode-tracker"
                                  ++ str ".git"]
  = Some (str "https://github.com/" ++ str "tifye/vscode-tracker")
  ∧ Part000.getGitRemoteURL_urls [str "git@github.com:" ++ str "tifye/vscode-tracker"]
    = Some (str "https://github.com/" ++ str "tifye/vscode-tracker").
Proof.
  apply (getGitRemoteURL_urls_github (str "tifye/vscode-tracker")).
  vm_compute. reflexivity.
Defined.

(** X27: a URL that starts with [git@github.com] is accepted also when
    no colon follows the host, as with an SSH host alias; when it holds
    neither [git@github.com:] nor [.git] it is returned as it is, not as an
    HTTPS URL. *)
Theorem getGitRemoteURL_urls_host_alias (url : jsstring) :
  startsWith url (str "git@github.com") = true →
  contains url (str "git@github.com:") = false →
  contains url (str ".git") = false →
  Part000.getGitRemoteURL_urls [url] = Some url.
Proof.
  intros Hshape Hcolon Hgit. cbn [Part000.getGitRemoteURL_urls]. rewrite Hshape.
  by rewrite (replace_absent url _ _ Hcolon), (replace_absent url _ _ Hgit).
Qed.

Lemma getGitRemoteURL_urls_host_alias_witness :
  Part000.getGitRemoteURL_urls [str "git@github.com-work:acme/widgets"]
  = Some (str "git@github.com-work:acme/widgets").
Proof.
  apply (getGitRemoteURL_urls_host_alias (str "git@github.com-work:acme/widgets"));
    vm_compute; reflexivity.
Defined.

(** ** The lines of the output of a command *)

Lemma plain_not_LF (c : N) : isWhiteSpace c = false → N.eqb c LF = false.
Proof.
  intros Hc. destruct (N.eqb_spec c LF) as [->|]; [|done]. by vm_compute in Hc.
Qed.

Lemma split_from_plain (name rest : jsstring) :
  Forall (fun c => isWhiteSpace c = false) name →
  split_from (name ++ rest)
  = (name ++ (split_from rest).1, (split_from rest).2).
Proof.
  induction 1 as [|c name Hc _ IH]; cbn [app split_from].
  - by destruct (split_from rest).
  - rewrite IH. cbn. by rewrite (plain_not_LF c Hc).
Qed.

(** A plain name followed by a line feed is the first piece of [split]. *)
Lemma split_plain_line (name rest : jsstring) :
  Forall (fun c => isWhiteSpace c = false) name →
  split (name ++ LF :: rest) = name :: split rest.
Proof.
  intros Hname. unfold split. rewrite split_from_plain by done.
  cbn [split_from]. destruct (split_from rest) as [piece pieces]. cbn.
  by rewrite app_nil_r.
Qed.

Lemma split_plain (name : jsstring) :
  Forall (fun c => isWhiteSpace c = false) name → split name = [name].
Proof.
  intros Hname. unfold split.
  rewrite <- (app_nil_r name) at 1. rewrite split_from_plain by done.
  cbn. by rewrite app_nil_r.
Qed.

Lemma split_plain_lines (names : list jsstring) (name : jsstring) :
  Forall plain_name names →
  Forall (fun c => isWhiteSpace c = false) name →
  split (print_lines names ++ name) = names ++ [name].
Proof.
  intros Hnames Hname. induction Hnames as [|n names [_ Hn] _ IH].
  - by apply split_plain.
  - cbn [print_lines flat_map app]. rewrite <- !app_assoc. cbn [app].
    rewrite split_plain_line by done. by rewrite <- IH.
Qed.

Lemma trimStart_plain (name rest : jsstring) :
  plain_name name → trimStart (name ++ rest) = name ++ rest.
Proof.
  intros [Hne Hname]. destruct Hname as [|c name Hc _]; [done|].
  cbn [app trimStart]. by rewrite Hc.
Qed.

Lemma rev_plain_name (name : jsstring) : plain_name name → plain_name (rev name).
Proof.
  intros [Hne Hname]. split.
  - intros Hrev. apply Hne. by rewrite <- (rev_involutive name), Hrev.
  - by apply Forall_rev.
Qed.

(** [trim] removes the last line feed of the printed lines and nothing
    else. *)
Lemma trim_print_lines (names : list jsstring) (name : jsstring) :
  Forall plain_name names → plain_name name →
  trim (print_lines (names ++ [name])) = print_lines names ++ name.
Proof.
  intros Hnames Hname. unfold trim, print_lines.
  rewrite flat_map_app. cbn [flat_map]. rewrite app_nil_r.
  assert (Hstart : trimStart (flat_map (fun n => n ++ [LF]) names ++ name ++ [LF])
                   = flat_map (fun n => n ++ [LF]) names ++ name ++ [LF]).
  { destruct Hnames as [|n names Hn _].
    - cbn [flat_map app]. by apply trimStart_plain.
    - cbn [flat_map]. rewrite <- !app_assoc. by apply trimStart_plain. }
  rewrite Hstart, !rev_app_distr. cbn [rev app trimStart].
  change (isWhiteSpace LF) with true. cbn iota.
  rewrite trimStart_plain by (by apply rev_plain_name).
  by rewrite rev_app_distr, !rev_involutive.
Qed.

(** When the command prints plain names, each on a line of its own ended
    by a line feed, the lines [trim] and [split] give back are these names,
    in order. *)
Lemma split_trim_print_lines (names : list jsstring) :
  names ≠ [] → Forall plain_name names →
  split (trim (print_lines names)) = names.
Proof.
  intros Hne Hnames.
  destruct (exists_last Hne) as (init & name & ->).
  apply Forall_app in Hnames as [Hinit [Hname _]%Forall_cons].
  rewrite trim_print_lines by done.
  apply split_plain_lines; [done|apply Hname].
Qed.

(** X6: when [git remote] prints the names of the remotes, each plain
    name on a line of its own ended by a line feed, [getGitRemotes] returns
    exactly these names, in order, with one external call and no change of
    a variable. *)
Theorem getGitRemotes_names (w : world) (dir : jsstring) (signal : nat) (g : global)
    (names : list jsstring) :
  names ≠ [] → Forall plain_name names →
  on_exec w (str "git remote") dir signal = ExecOk (print_lines names) →
  run w (Part000.getGitRemotes dir signal) g
  = (g, inl names, [CallExec (str "git remote") dir signal]).
Proof.
  intros Hne Hnames Hexec. cbn. rewrite Hexec. cbn.
  by rewrite split_trim_print_lines.
Qed.

Lemma getGitRemotes_names_witness :
  run (printing (print_lines [str "origin"; str "upstream"]))
      (Part000.getGitRemotes (str "C:\proj") 0) initial
  = (initial, inl [str "origin"; str "upstream"],
     [CallExec (str "git remote") (str "C:\proj") 0]).
Proof.
  apply (getGitRemotes_names (printing (print_lines [str "origin"; str "upstream"]))
           (str "C:\proj") 0 initial [str "origin"; str "upstream"]).
  - discriminate.
  - repeat constructor; vm_compute; congruence.
  - reflexivity.
Defined.

(** X7: among the URLs of one remote the first that starts with
    [git@github.com] decides: the URLs before it are skipped and the URLs
    after it are not looked at. *)
Theorem getGitRemoteURL_urls_first_match (before after : list jsstring)
    (url : jsstring) :
  forallb (fun u => negb (startsWith u (str "git@github.com"))) before = true →
  startsWith url (str "git@github.com") = true →
  Part000.getGitRemoteURL_urls (before ++ url :: after)
  = Some (replace (replace url (str "git@github.com:") (str "https://github.com/"))
                  (str ".git") []).
Proof.
  intros Hbefore Hurl. induction before as [|u before IH].
  - cbn [app Part000.getGitRemoteURL_urls]. by rewrite Hurl.
  - cbn [forallb] in Hbefore. apply andb_true_iff in Hbefore as [Hu Hbefore].
    apply negb_true_iff in Hu.
    cbn [app Part000.getGitRemoteURL_urls]. rewrite Hu. by apply IH.
Qed.

Lemma getGitRemoteURL_urls_first_match_witness :
  Part000.getGitRemoteURL_urls
    ([str "https://gitlab.com/acme/widgets.git"]
       ++ str "git@github.com:acme/widgets.git" :: [str "git@github.com:acme/other.git"])
  = Some (replace (replace (str "git@github.com:acme/widgets.git")
                           (str "git@github.com:") (str "https://github.com/"))
                  (str ".git") []).
Proof.
  apply (getGitRemoteURL_urls_first_match
           [str "https://gitlab.com/acme/widgets.git"]
           [str "git@github.com:acme/other.git"]
           (str "git@github.com:acme/widgets.git")); reflexivity.
Defined.

(** ** The resolver and its cache *)

(** What [getGitRemoteURL] returns, in terms of the URLs of the remote. *)
Lemma getGitRemoteURL_result (w : world) (dir remote : jsstring) (signal : nat) :
  match on_exec w (str "git remote get-url --all " ++ remote) dir signal with
  | ExecOk stdout => Part000.getGitRemoteURL_urls (split (trim stdout))
  | ExecErr _ => None
  end
  = Part000.getGitRemoteURL_urls (remote_urls w dir signal remote).
Proof. unfold remote_urls, get_url_cmd. by destruct (on_exec w _ dir signal). Qed.

Lemma getGitRemoteURL_urls_no_github (urls : list jsstring) :
  forallb (fun url => negb (startsWith url (str "git@github.com"))) urls = true →
  Part000.getGitRemoteURL_urls urls = None.
Proof.
  induction urls as [|url urls IH]; [done|].
  cbn [forallb Part000.getGitRemoteURL_urls].
  intros [Hu Hr]%andb_true_iff. apply negb_true_iff in Hu. rewrite Hu. by apply IH.
Qed.

(** The loop of the resolver stops at the first remote with a GitHub URL. *)
Lemma run_findGitHubURL_remotes_first (w : world) (ws : option jsstring) (dir : jsstring) (signal : nat)
    (before after : list jsstring) (remote url : jsstring) (g : global) :
  no_github_url w dir signal before = true →
  Part000.getGitRemoteURL_urls (remote_urls w dir signal remote) = Some url →
  ∃ g1,
    run w (Part000.findGitHubURL_remotes ws dir signal (before ++ remote :: after)) g
    = (g1, inl (Some url), map (get_url_call dir signal) (before ++ [remote]))
    ∧ knownGitHubs g1 = <[ws:=url]> (knownGitHubs g).
Proof.
  intros Hbefore Hurl. revert g. induction before as [|r before IH]; intros g.
  - cbn [app Part000.findGitHubURL_remotes]. rewrite run_bind.
    destruct (run_getGitRemoteURL w dir remote signal g) as (g1 & -> & _ & Hk).
    rewrite getGitRemoteURL_result, Hurl. cbn.
    eexists. split; [done|]. unfold set_chan, set_knownGitHubs; cbn. by rewrite Hk.
  - cbn [no_github_url forallb] in Hbefore.
    apply andb_true_iff in Hbefore as [Hr Hbefore].
    cbn [app Part000.findGitHubURL_remotes]. rewrite run_bind.
    destruct (run_getGitRemoteURL w dir r signal g) as (g1 & -> & _ & Hk).
    rewrite getGitRemoteURL_result, (getGitRemoteURL_urls_no_github _ Hr).
    destruct (IH Hbefore g1) as (g2 & -> & Hk2).
    exists g2. split; [done|]. by rewrite Hk2, Hk.
Qed.

(** A URL the loop returns is in the cache when the loop ends. *)
Lemma run_findGitHubURL_remotes_cached (w : world) (ws : option jsstring) (dir : jsstring) (signal : nat)
    (remotes : list jsstring) (g g1 : global) (url : jsstring) (calls : list call) :
  run w (Part000.findGitHubURL_remotes ws dir signal remotes) g
  = (g1, inl (Some url), calls) →
  knownGitHubs g1 !! ws = Some url.
Proof.
  revert g calls. induction remotes as [|remote remotes IH]; intros g calls; [done|].
  cbn [Part000.findGitHubURL_remotes]. rewrite run_bind.
  destruct (run_getGitRemoteURL w dir remote signal g) as (g0 & -> & _ & Hk).
  destruct (match on_exec w _ dir signal with ExecOk _ => _ | ExecErr _ => _ end)
    as [found|].
  - cbn. intros [= <- <- _]. unfold set_chan, set_knownGitHubs; cbn.
    apply lookup_insert_eq.
  - destruct (run w _ g0) as [[g2 r] calls2] eqn:Hrun.
    intros [= <- -> _]. by eapply IH.
Qed.

Section Extras.

Variable dirname : jsstring → jsstring.

(** X8: a workspace that is in the cache is resolved without an external
    call: the cached URL is returned, the cache is as before, and one line
    is logged. *)
Theorem findGitHubURL_cached (w : world) (ws : option jsstring) (file url : jsstring) (signal : nat)
    (g : global) :
  knownGitHubs g !! ws = Some url →
  run w (Part000.findGitHubURL dirname ws file signal) g
  = (set_chan (fun lines => lines ++ [url ++ str " (looked up from cache)"]) g,
     inl (Some url), []).
Proof.
  intros Hhit. unfold Part000.findGitHubURL.
  cbn [mbind task_mbind task_bind gets run]. by rewrite Hhit.
Qed.

(** X9: on a workspace that is not in the cache the resolver looks the
    remotes up in the order of the enumeration and stops at the first one
    with a GitHub URL: the remotes after it are not looked up, the URL is
    returned and it is stored in the cache under the workspace. *)
Theorem findGitHubURL_first_match (w : world) (ws : option jsstring) (file : jsstring) (signal : nat)
    (g : global) (before after : list jsstring) (remote url : jsstring) :
  knownGitHubs g !! ws = None →
  remote_names w (dirname file) signal = before ++ remote :: after →
  no_github_url w (dirname file) signal before = true →
  Part000.getGitRemoteURL_urls (remote_urls w (dirname file) signal remote) = Some url →
  ∃ g1,
    run w (Part000.findGitHubURL dirname ws file signal) g
    = (g1, inl (Some url),
       CallExec (str "git remote") (dirname file) signal
         :: map (get_url_call (dirname file) signal) (before ++ [remote]))
    ∧ knownGitHubs g1 = <[ws:=url]> (knownGitHubs g).
Proof.
  intros Hmiss Hnames Hbefore Hurl. unfold Part000.findGitHubURL.
  cbn [mbind task_mbind task_bind gets run]. rewrite Hmiss.
  change (task_bind ?f ?t) with (t ≫= f). rewrite run_bind.
  destruct (run_getGitRemotes w (dirname file) signal g) as (g0 & -> & _ & Hk).
  change (match on_exec w (str "git remote") (dirname file) signal with
          | ExecOk stdout => split (trim stdout)
          | ExecErr _ => []
          end) with (remote_names w (dirname file) signal).
  rewrite Hnames.
  destruct (run_findGitHubURL_remotes_first w ws (dirname file) signal before after
              remote url g0 Hbefore Hurl) as (g1 & -> & Hk1).
  exists g1. split; [done|]. by rewrite Hk1, Hk.
Qed.

(** X10: a URL the resolver returns is in the cache when it returns: a
    later resolution for the workspace, for any file and in any world,
    returns the same URL without an external call. *)
Theorem findGitHubURL_memoized (w : world) (ws : option jsstring) (file : jsstring) (signal : nat)
    (g g1 : global) (url : jsstring) (calls : list call) :
  run w (Part000.findGitHubURL dirname ws file signal) g = (g1, inl (Some url), calls) →
  knownGitHubs g1 !! ws = Some url
  ∧ ∀ w' file' signal',
      (run w' (Part000.findGitHubURL dirname ws file' signal') g1).1.2 = inl (Some url)
      ∧ (run w' (Part000.findGitHubURL dirname ws file' signal') g1).2 = [].
Proof.
  intros Hrun.
  assert (Hcached : knownGitHubs g1 !! ws = Some url).
  { revert Hrun. unfold Part000.findGitHubURL.
    cbn [mbind task_mbind task_bind gets run].
    destruct (knownGitHubs g !! ws) as [cached|] eqn:Hg.
    - cbn. intros [= <- <- _]. done.
    - change (task_bind ?f ?t) with (t ≫= f). rewrite run_bind.
      destruct (run_getGitRemotes w (dirname file) signal g) as (g0 & -> & _ & Hk).
      destruct (run w _ g0) as [[g2 r] calls2] eqn:Hloop.
      intros [= <- -> _]. by eapply run_findGitHubURL_remotes_cached. }
  split; [done|]. intros w' file' signal'.
  by destruct (run_findGitHubURL_hit dirname w' ws file' url signal' g1 Hcached)
    as (g2 & -> & _).
Qed.

(** X11: when the enumeration of the remotes fails, the failure is logged
    and swallowed: the resolver returns [undefined] after this one call,
    without a lookup and without a change of the cache. *)
Theorem findGitHubURL_enumeration_fails (w : world) (ws : option jsstring) (file : jsstring)
    (signal : nat) (g : global) (err : exec_error) :
  knownGitHubs g !! ws = None →
  on_exec w (str "git remote") (dirname file) signal = ExecErr err →
  run w (Part000.findGitHubURL dirname ws file signal) g
  = (set_chan (fun lines => lines ++ [str "Get Git remotes: " ++ error_text err]) g,
     inl None, [CallExec (str "git remote") (dirname file) signal]).
Proof.
  intros Hmiss Hexec. unfold Part000.findGitHubURL.
  cbn [mbind task_mbind task_bind gets run]. rewrite Hmiss.
  cbn. by rewrite Hexec.
Qed.

End Extras.

(** ** Invariants of the segments of a tick *)

Lemma respects_run_sync {A : Type} (R : global → global → Prop) `{!PreOrder R}
    (t : task A) (g g' : global) (st : status A) :
  respects R t g → run_sync t g = (g', st) →
  R g g'
  ∧ match st with
    | AwaitExec _ _ _ k => ∀ r g2, respects R (k r) g2
    | AwaitFetch _ k => ∀ r g2, respects R (k r) g2
    | AwaitText k => ∀ r g2, respects R (k r) g2
    | _ => True
    end.
Proof.
  revert g. induction t as [a|e|k IH|g0 k IH|cmd cwd signal k IH|req k IH|k IH];
    intros g Ht Hrun; cbn in *; try (injection Hrun as <- <-; done).
  - exact (IH g g Ht Hrun).
  - destruct Ht as [Hstep Ht]. destruct (IH g0 Ht Hrun) as [Hrest Hst].
    split; [by etrans|done].
Qed.

Lemma respects_segment {A : Type} (R : global → global → Prop) `{!PreOrder R}
    (t : task A) (g a b : global) :
  respects R t g → segment t g a b → R a b.
Proof.
  intros Ht Hs. induction Hs as
    [t g g' st Hrun
    |t g g1 cmd cwd signal k r g2 a b Hrun Hs IH
    |t g g1 req k r g2 a b Hrun Hs IH
    |t g g1 k r g2 a b Hrun Hs IH];
    destruct (respects_run_sync R t _ _ _ Ht Hrun) as [Hstep Hst]; auto.
Qed.

Lemma respects_bind {A B : Type} (R : global → global → Prop) (t : task A)
    (f : A → task B) (g : global) :
  respects R t g → (∀ a g', respects R (f a) g') → respects R (t ≫= f) g.
Proof.
  intros Ht Hf. revert g Ht.
  induction t as [a|e|k IH|g0 k IH|cmd cwd signal k IH|req k IH|k IH];
    intros g Ht; cbn in *; auto.
  destruct Ht as [Hstep Ht]. split; [done|]. by apply IH.
Qed.

#[local] Instance grows_preorder (cur : State) : PreOrder (grows cur).
Proof.
  split.
  - intros g. unfold grows. repeat split; auto.
  - intros a b c (Hi1 & Hk1 & Hp1 & Hl1 & Hf1 & Hc1) (Hi2 & Hk2 & Hp2 & Hl2 & Hf2 & Hc2).
    unfold grows. repeat split.
    + by etrans.
    + by etrans.
    + destruct Hp2 as [-> | ->]; auto.
    + lia.
    + auto.
    + by etrans.
Qed.

Lemma grows_set_chan (cur : State) (text : jsstring) (g : global) :
  grows cur g (set_chan (fun lines => lines ++ [text]) g).
Proof.
  unfold grows, set_chan; cbn. repeat split; auto. by apply prefix_app_r.
Qed.

Lemma grows_set_prevState (cur : State) (g : global) :
  grows cur g (set_prevState cur g).
Proof. unfold grows, set_prevState; cbn. repeat split; auto. Qed.

Lemma grows_set_ignoredFiles (cur : State) (file : jsstring) (g : global) :
  grows cur g (set_ignoredFiles (fun files => {[file]} ∪ files) g).
Proof.
  unfold grows, set_ignoredFiles; cbn. repeat split; auto. set_solver.
Qed.

Lemma grows_set_knownGitHubs (cur : State) (ws : option jsstring) (url : jsstring) (g : global) :
  grows cur g (set_knownGitHubs (fun known => <[ws:=url]> known) g).
Proof.
  unfold grows, set_knownGitHubs; cbn. repeat split; auto.
  rewrite dom_insert_L. set_solver.
Qed.

Lemma grows_abort_current (cur : State) (g : global) :
  grows cur g (abort_current g).
Proof.
  unfold grows, abort_current.
  destruct (updateStateAbortController g) as [i|]; cbn; repeat split; auto.
  - by rewrite length_insert.
  - intros j Hj. destruct (decide (i = j)) as [->|Hne].
    + rewrite list_lookup_insert_eq; [done|]. by eapply lookup_lt_Some.
    + by rewrite list_lookup_insert_ne.
Qed.

Lemma grows_install_controller (cur : State) (g : global) :
  grows cur g (install_controller g).
Proof.
  unfold grows, install_controller; cbn. repeat split; auto.
  - rewrite length_app. lia.
  - intros i Hi. by apply lookup_app_l_Some.
Qed.

Lemma respects_modify (R : global → global → Prop) (f : global → global) (g : global) :
  R g (f g) → respects R (modify f) g.
Proof. by intros H. Qed.

Lemma respects_getGitRemoteURL (cur : State) (dir remote : jsstring) (signal : nat)
    (g : global) :
  respects (grows cur) (Part000.getGitRemoteURL dir remote signal) g.
Proof.
  intros [stdout|err] g2; cbn; [done|]. split; [apply grows_set_chan|done].
Qed.

Lemma respects_findGitHubURL_remotes (cur : State) (ws : option jsstring) (dir : jsstring) (signal : nat)
    (remotes : list jsstring) (g : global) :
  respects (grows cur) (Part000.findGitHubURL_remotes ws dir signal remotes) g.
Proof.
  revert g. induction remotes as [|remote remotes IH]; intros g; [done|].
  cbn [Part000.findGitHubURL_remotes].
  apply respects_bind; [apply respects_getGitRemoteURL|].
  intros [url|] g'; [|apply IH]. cbn.
  split; [apply grows_set_knownGitHubs|]. split; [apply grows_set_chan|done].
Qed.

Lemma respects_findGitHubURL (dirname : jsstring → jsstring) (cur : State)
    (ws : option jsstring) (file : jsstring) (signal : nat) (g : global) :
  respects (grows cur) (Part000.findGitHubURL dirname ws file signal) g.
Proof.
  unfold Part000.findGitHubURL. cbn [mbind task_mbind task_bind gets respects].
  destruct (knownGitHubs g !! ws) as [url|].
  - cbn. split; [apply grows_set_chan|done].
  - change (task_bind ?f ?t) with (t ≫= f). apply respects_bind.
    + intros [stdout|err] g2; cbn; [done|]. split; [apply grows_set_chan|done].
    + intros remotes g'. apply respects_findGitHubURL_remotes.
Qed.

Lemma respects_send (cur : State) (target token : jsstring) (body : json_object)
    (g : global) :
  respects (grows cur) (send target token body) g.
Proof.
  unfold send. cbn. destruct (updateStateAbortController g); cbn.
  - intros [[|]|text] g2; cbn; [done| |split; [apply grows_set_chan|done]].
    intros [message|text] g3; cbn; (split; [apply grows_set_chan|done]).
  - split; [apply grows_set_chan|done].
Qed.

Lemma respects_pollState_report (dirname : jsstring → jsstring)
    (target token : jsstring) (vs : vscode) (ed : TextEditor) (cur : State)
    (g : global) :
  respects (grows cur) (Part000.pollState_report dirname target token vs ed cur) g.
Proof.
  unfold Part000.pollState_report. apply respects_bind.
  - cbn. by destruct (updateStateAbortController g).
  - intros signal g1. apply respects_bind; [apply respects_findGitHubURL|].
    intros repository g2. apply respects_bind.
    { apply respects_modify, grows_set_prevState. }
    intros [] g3. apply respects_bind.
    { apply respects_modify, grows_set_chan. }
    intros [] g4. apply respects_send.
Qed.

Lemma respects_record_ignored (cur : State) (file : jsstring) (g : global) :
  respects (grows cur)
    (appendLine (file ++ str " is ignored");;
     modify (set_ignoredFiles (fun files => {[file]} ∪ files))) g.
Proof.
  cbn. split; [apply grows_set_chan|]. split; [apply grows_set_ignoredFiles|done].
Qed.

Lemma respects_Part000_pollState (dirname : jsstring → jsstring)
    (target token : jsstring) (vs : vscode) (cur : State) (g : global) :
  capture vs = inl cur →
  respects (grows cur) (Part000.pollState dirname target token vs) g.
Proof.
  unfold capture, Part000.pollState. intros Hcap.
  destruct (activeTextEditor vs) as [ed|]; [|done].
  destruct (getViewRange _ _) as [viewRange|]; [|done].
  injection Hcap as <-.
  cbn -[elem_of]. destruct (shallowEqual _ _); [done|]. cbn -[elem_of].
  split; [apply grows_set_chan|].
  destruct (bool_decide _); cbn; [split; [apply grows_set_chan|done]|].
  split; [apply grows_abort_current|]. split; [apply grows_install_controller|].
  destruct (negb _); [|apply respects_pollState_report].
  cbn. destruct (updateStateAbortController _); [|done]. cbn.
  intros r g2. destruct (strict_eq _ _ || strict_eq _ _).
  - apply respects_record_ignored.
  - apply respects_pollState_report.
Qed.

Lemma respects_ExtensionJs_pollState (dirname : jsstring → jsstring)
    (target token : jsstring) (vs : vscode) (cur : State) (g : global) :
  capture vs = inl cur →
  respects (grows cur) (ExtensionJs.pollState dirname target token vs) g.
Proof.
  unfold capture, ExtensionJs.pollState. intros Hcap.
  destruct (activeTextEditor vs) as [ed|]; [|done].
  destruct (getViewRange _ _) as [viewRange|]; [|done].
  injection Hcap as <-.
  cbn -[elem_of]. destruct (shallowEqual _ _); [done|]. cbn -[elem_of].
  split; [apply grows_set_prevState|]. split; [apply grows_set_chan|].
  split; [apply grows_abort_current|]. split; [apply grows_install_controller|].
  destruct (bool_decide _); cbn; [split; [apply grows_set_chan|done]|].
  destruct (negb _); [|apply respects_send].
  cbn. destruct (updateStateAbortController _); [|done]. cbn.
  intros r g2. destruct (strict_eq _ _ || strict_eq _ _).
  - apply respects_record_ignored.
  - apply respects_send.
Qed.

(** X12: in both revisions every segment of a tick, whatever the other
    ticks did between its segments, only adds to the variables: no file
    leaves the set of ignored files, no workspace leaves the repository
    cache, the last state is kept or becomes the snapshot of the tick,
    controllers are added and none is un-aborted, and the log is appended
    to. *)
Theorem tick_segments_grow (dirname : jsstring → jsstring) (target token : jsstring)
    (vs : vscode) (cur : State) (g a b : global) :
  capture vs = inl cur →
  (segment (Part000.pollState dirname target token vs) g a b → grows cur a b)
  ∧ (segment (ExtensionJs.pollState dirname target token vs) g a b → grows cur a b).
Proof.
  intros Hcap. split; apply respects_segment; try apply _.
  - by apply respects_Part000_pollState.
  - by apply respects_ExtensionJs_pollState.
Qed.

(** ** The request of a report *)

Lemma pollState_report_request (dirname : jsstring → jsstring)
    (target token : jsstring) (vs : vscode) (ed : TextEditor) (cur : State)
    (g : global) (req : request) (g' : global) :
  sends (Part000.pollState_report dirname target token vs ed cur) g req g' →
  ∃ body signal,
    req = mkRequest target (str "POST") (str "Bearer " ++ token)
                    (str "application/json") body signal
    ∧ updateStateAbortController g' = Some signal.
Proof.
  unfold Part000.pollState_report. intros Hs.
  apply sends_bind in Hs as [(signal & g1 & _ & Hs)|Hn];
    [|by destruct Hn; apply current_signal_no_fetch].
  apply sends_bind in Hs as [(repository & g2 & Hret & Hs)|Hn];
    [|by destruct Hn; apply findGitHubURL_no_fetch].
  eapply (sends_run_sync _ (send target token _) _
            (set_chan (fun lines => lines ++ [str "Updating state"])
                      (set_prevState cur g2))) in Hs; [|done].
  apply send_sends in Hs as (-> & signal' & Hc & ->). by eauto.
Qed.

(** A tick of [extension.js] that sends a request has taken a snapshot,
    and the request is the one [send] makes for it. *)
Lemma ExtensionJs_pollState_sends (dirname : jsstring → jsstring)
    (target token : jsstring) (vs : vscode) (g : global) (req : request)
    (g' : global) :
  sends (ExtensionJs.pollState dirname target token vs) g req g' →
  ∃ cur g0,
    capture vs = inl cur
    ∧ sends (send target token (JSON_stringify (State_obj cur))) g0 req g'.
Proof.
  intros Hs. destruct (capture vs) as [cur|e] eqn:Hcap.
  - pose proof (ExtensionJs_first_segment dirname target token vs cur g Hcap) as Hrun.
    exists cur.
    destruct (shallowEqual _ _).
    { apply sends_inv in Hs. by rewrite Hrun in Hs. }
    destruct (bool_decide _).
    { apply sends_inv in Hs. by rewrite Hrun in Hs. }
    destruct (negb _).
    + apply sends_inv in Hs. rewrite Hrun in Hs. destruct Hs as (r & g2 & Hs).
      destruct (strict_eq _ _ || strict_eq _ _); [|by eauto].
      exfalso. revert Hs. apply no_fetch_sends. by intros g0.
    + exists (accepted cur g). split; [done|]. by eapply sends_run_sync.
  - exfalso. apply sends_inv in Hs. revert Hs Hcap.
    unfold ExtensionJs.pollState, capture.
    destruct (activeTextEditor vs) as [ed|]; [|done].
    by destruct (getViewRange _ _).
Qed.

(** X13: in both revisions every request of a tick is a POST to [target]
    with the headers [Authorization: Bearer <token>] and
    [Content-Type: application/json], and its signal is the one of the
    controller the variable [updateStateAbortController] holds at the moment
    of the call, whichever tick installed it. *)
Theorem request_of_a_tick (dirname : jsstring → jsstring) (target token : jsstring)
    (vs : vscode) (g : global) (req : request) (g' : global) :
  sends (Part000.pollState dirname target token vs) g req g'
  ∨ sends (ExtensionJs.pollState dirname target token vs) g req g' →
  req_url req = target
  ∧ req_method req = str "POST"
  ∧ req_authorization req = str "Bearer " ++ token
  ∧ req_contentType req = str "application/json"
  ∧ updateStateAbortController g' = Some (req_signal req).
Proof.
  intros [Hs|Hs].
  - destruct (Part000_pollState_sends dirname _ _ _ _ _ _ Hs)
      as (cur & ed & g0 & _ & _ & _ & Hr).
    by apply pollState_report_request in Hr as (body & signal & -> & Hc).
  - destruct (ExtensionJs_pollState_sends dirname _ _ _ _ _ _ Hs)
      as (cur & g0 & _ & Hr).
    by apply send_sends in Hr as (-> & signal & Hc & ->).
Qed.

(** X14: the body of every report of [extension.js] is the snapshot alone:
    the keys [fileName], [language], [row], [col] and [viewChunk] with
    these fields of the snapshot; before them the key [workspace] with the
    name of the workspace when a folder is open, and no key [workspace]
    when none is (the name is [undefined]); and never a key
    [repository]. *)
Theorem ExtensionJs_report_body (dirname : jsstring → jsstring)
    (target token : jsstring) (vs : vscode) (g : global) (req : request)
    (g' : global) :
  sends (ExtensionJs.pollState dirname target token vs) g req g' →
  ∃ cur,
    capture vs = inl cur
    ∧ req_body req
      = optional_member "workspace" (workspace cur)
        ++ [ ("fileName"%string, JString (fileName cur));
             ("language"%string, JString (language cur));
             ("row"%string, JNumber (row cur));
             ("col"%string, JNumber (col cur));
             ("viewChunk"%string, JString (viewChunk cur)) ]
    ∧ json_member (req_body req) "repository" = None.
Proof.
  intros Hs.
  destruct (ExtensionJs_pollState_sends dirname _ _ _ _ _ _ Hs)
    as (cur & g0 & Hcap & Hr).
  apply send_sends in Hr as (-> & signal & Hc & ->).
  exists cur. split; [done|]. clear.
  by destruct cur as [[name|] file lang r c view].
Qed.

(** X15: a tick of [part_000] that waits for the enumeration of the
    remotes is not stopped by a later tick.  When its call fails, as the
    call of an aborted controller does, it goes on in the same segment: it
    stores its own snapshot as the last state, over what a later tick has
    stored, and it sends its report, without a repository, under the signal
    of the controller the variable holds then. *)
Theorem superseded_tick_reports (dirname : jsstring → jsstring)
    (target token : jsstring) (vs : vscode) (cur : State) (g : global) :
  capture vs = inl cur →
  changed (prevState g) cur = true →
  fileName (prevState g) = fileName cur →
  fileName cur ∉ ignoredFiles g →
  knownGitHubs g !! workspace cur = None →
  ∃ g1 k,
    run_sync (Part000.pollState dirname target token vs) g
    = (g1, AwaitExec (str "git remote") (dirname (fileName cur))
                     (length (controllers g)) k)
    ∧ ∀ err g2 newer,
        updateStateAbortController g2 = Some newer →
        ∃ g3 req k',
          run_sync (k (ExecErr err)) g2 = (g3, AwaitFetch req k')
          ∧ req_signal req = newer
          ∧ prevState g3 = cur
          ∧ json_member (req_body req) "repository" = None.
Proof.
  intros Hcap Hch Hfile Hfresh Hmiss.
  destruct (Part000_first_segment dirname target token vs cur g Hcap)
    as (ed & Hed & Hrun).
  assert (Hfields : workspace_name vs = workspace cur ∧ doc_fileName ed = fileName cur).
  { unfold capture in Hcap. rewrite Hed in Hcap.
    destruct (getViewRange _ _); [|done]. by injection Hcap as <-. }
  destruct Hfields as [Hw Hf].
  unfold changed in Hch. apply negb_true_iff in Hch.
  rewrite Hch, bool_decide_eq_false_2 in Hrun by done.
  assert (Hsame : negb (strict_eq (VStr (fileName (prevState g))) (VStr (fileName cur)))
                  = false).
  { rewrite Hfile. by rewrite strict_eq_refl. }
  rewrite Hsame in Hrun. rewrite Hrun.
  destruct (passed_gates_fields g) as (_ & Hk & _ & Hc & _).
  unfold Part000.pollState_report, Part000.findGitHubURL.
  rewrite run_sync_bind. cbn. rewrite Hc. cbn. rewrite Hk, Hw, Hmiss, Hf. cbn.
  do 2 eexists. split; [done|].
  intros err g2 newer Hnewer. cbn. unfold send. cbn.
  unfold set_chan, set_prevState; cbn. rewrite Hnewer. cbn.
  do 3 eexists. split; [done|]. split; [done|]. split; [done|].
  by destruct cur as [[name|] file lang r c view].
Qed.

(** ** A tick run to its end *)

Lemma run_run_sync {A : Type} (w : world) (t : task A) (g : global) :
  run w t g =
    match run_sync t g with
    | (g1, Finished a) => (g1, inl a, [])
    | (g1, Failed e) => (g1, inr e, [])
    | (g1, AwaitExec cmd cwd signal k) =>
        let '(g2, r, calls) := run w (k (on_exec w cmd cwd signal)) g1 in
        (g2, r, CallExec cmd cwd signal :: calls)
    | (g1, AwaitFetch req k) =>
        let '(g2, r, calls) := run w (k (on_fetch w req)) g1 in
        (g2, r, CallFetch req :: calls)
    | (g1, AwaitText k) =>
        let '(g2, r, calls) := run w (k (on_text w)) g1 in
        (g2, r, CallText :: calls)
    end.
Proof.
  revert g. induction t as [a|e|k IH|g0 k IH|cmd cwd signal k IH|req k IH|k IH];
    intros g; cbn; auto.
Qed.

(** A command that starts with [git remote] is no ignore check. *)
Lemma git_remote_not_ignore_check (c : call) :
  is_git_remote c = true → is_ignore_check c = false ∧ is_fetch c = false.
Proof.
  destruct c as [cmd cwd signal|req|]; [|done..]. cbn [is_git_remote].
  intros H. split; [|done]. cbn [is_ignore_check].
  change (str "git remote") with
    ([103; 105; 116; 32; 114; 101; 109; 111; 116; 101]%N : jsstring) in H.
  change (str "git check-ignore ") with
    ([103; 105; 116; 32; 99; 104; 101; 99; 107; 45; 105; 103; 110; 111; 114; 101;
      32]%N : jsstring).
  destruct cmd as [|c1 [|c2 [|c3 [|c4 [|c5 cmd]]]]];
    cbn in H; cbn; rewrite ?andb_false_r in H; try done.
  destruct (N.eqb_spec c5 114) as [->|]; cbn in *; rewrite ?andb_false_r in *; done.
Qed.

Lemma run_getGitRemoteURL_calls (w : world) (dir remote : jsstring) (signal : nat)
    (g : global) :
  Forall (fun c => is_git_remote c = true)
         (run w (Part000.getGitRemoteURL dir remote signal) g).2.
Proof.
  destruct (run_getGitRemoteURL w dir remote signal g) as (g1 & -> & _).
  by repeat constructor.
Qed.

(** The loop of the resolver run to its end, with its calls. *)
Lemma run_findGitHubURL_remotes_calls (w : world) (ws : option jsstring) (dir : jsstring) (signal : nat)
    (remotes : list jsstring) (g : global) :
  ∃ g1 repository calls,
    run w (Part000.findGitHubURL_remotes ws dir signal remotes) g
      = (g1, inl repository, calls)
    ∧ same_session g g1
    ∧ Forall (fun c => is_git_remote c = true) calls.
Proof.
  revert g. induction remotes as [|remote remotes IH]; intros g.
  - exists g, None, []. split; [done|]. split; [apply same_session_refl|done].
  - cbn [Part000.findGitHubURL_remotes]. rewrite run_bind.
    destruct (run_getGitRemoteURL w dir remote signal g) as (g1 & -> & Hs & Hk).
    destruct (match on_exec w _ dir signal with ExecOk _ => _ | ExecErr _ => _ end)
      as [url|].
    + cbn. do 3 eexists. split; [done|]. split; [|by repeat constructor].
      eapply same_session_trans; [apply Hs|].
      eapply same_session_trans; [apply same_session_known|apply same_session_chan].
    + destruct (IH g1) as (g2 & repository & calls & -> & Hs2 & Hcalls).
      do 3 eexists. split; [done|]. split; [by eapply same_session_trans|].
      by constructor.
Qed.

Lemma filter_none {A : Type} (f : A → bool) (l : list A) :
  Forall (fun x => f x = false) l → filter (fun x => f x = true) l = [].
Proof.
  induction 1 as [|x l Hx _ IH]; [done|].
  rewrite filter_cons_False; [done|]. by rewrite Hx.
Qed.

(** The calls of a report: one [fetch] call and no ignore check. *)
Lemma report_calls (before tail : list call) (req : request) :
  Forall (fun c => is_git_remote c = true) before →
  Forall (fun c => is_fetch c = false ∧ is_ignore_check c = false) tail →
  filter (fun c => is_fetch c = true) (before ++ CallFetch req :: tail) = [CallFetch req]
  ∧ Forall (fun c => is_ignore_check c = false) (before ++ CallFetch req :: tail).
Proof.
  intros Hbefore Htail. split.
  - rewrite filter_app, filter_cons_True by done.
    rewrite !filter_none; [done| |].
    + eapply Forall_impl; [exact Htail|]. by intros c [? _].
    + eapply Forall_impl; [exact Hbefore|].
      intros c Hc. by apply git_remote_not_ignore_check.
  - apply Forall_app. split.
    + eapply Forall_impl; [exact Hbefore|].
      intros c Hc. by apply git_remote_not_ignore_check.
    + constructor; [done|]. eapply Forall_impl; [exact Htail|]. by intros c [_ ?].
Qed.

Lemma is_ignore_check_cmd (file dir : jsstring) (signal : nat) :
  is_ignore_check (CallExec (check_ignore_cmd file) dir signal) = true.
Proof. apply startsWith_app. Qed.

Lemma didChangeFile_true (prev cur : State) :
  negb (strict_eq (VStr (fileName prev)) (VStr (fileName cur))) = true →
  fileName prev ≠ fileName cur.
Proof.
  intros H%negb_true_iff Heq. rewrite Heq in H. by rewrite strict_eq_refl in H.
Qed.

Section Ticks.

Variable dirname : jsstring → jsstring.

(** The resolver run to its end, with its calls. *)
Lemma run_findGitHubURL_calls (w : world) (ws : option jsstring) (file : jsstring) (signal : nat)
    (g : global) :
  ∃ g1 repository calls,
    run w (Part000.findGitHubURL dirname ws file signal) g
      = (g1, inl repository, calls)
    ∧ same_session g g1
    ∧ Forall (fun c => is_git_remote c = true) calls.
Proof.
  unfold Part000.findGitHubURL. cbn [mbind task_mbind task_bind gets run].
  destruct (knownGitHubs g !! ws) as [url|].
  - cbn. do 3 eexists. split; [done|]. split; [apply same_session_chan|done].
  - change (task_bind ?f ?t) with (t ≫= f). rewrite run_bind.
    destruct (run_getGitRemotes w (dirname file) signal g) as (g1 & -> & Hs & _).
    destruct (run_findGitHubURL_remotes_calls w ws (dirname file) signal
                (match on_exec w (str "git remote") (dirname file) signal with
                 | ExecOk stdout => split (trim stdout)
                 | ExecErr _ => []
                 end) g1) as (g2 & repository & calls & -> & Hs2 & Hcalls).
    do 3 eexists. split; [done|]. split; [by eapply same_session_trans|].
    by constructor.
Qed.

(** [send] run to its end: one [fetch] call, followed by the reading of
    the answer when the answer is not a success; no variable but the log
    changes. *)
Lemma run_send_calls (w : world) (target token : jsstring) (body : json_object)
    (signal : nat) (g : global) :
  updateStateAbortController g = Some signal →
  ∃ g' tail,
    run w (send target token body) g
      = (g', inl tt,
         CallFetch (mkRequest target (str "POST") (str "Bearer " ++ token)
                              (str "application/json") body signal) :: tail)
    ∧ same_session g g'
    ∧ knownGitHubs g' = knownGitHubs g
    ∧ Forall (fun c => is_fetch c = false ∧ is_ignore_check c = false) tail.
Proof.
  intros Hc. unfold send. cbn [mbind task_mbind task_bind gets run]. rewrite Hc.
  cbn.
  match goal with |- context [on_fetch w ?req] =>
    destruct (on_fetch w req) as [[|]|text] end; cbn.
  - do 2 eexists. split; [done|]. split; [apply same_session_refl|done].
  - destruct (on_text w); cbn; do 2 eexists;
      (split; [done|]; split; [apply same_session_chan|]; split; [done|]);
      by repeat constructor.
  - do 2 eexists. split; [done|]. split; [apply same_session_chan|done].
Qed.

(** The report of [part_000] run to its end on variables that hold a
    controller: the calls of the resolver, then the [fetch] call and what
    follows it; at the end the snapshot is the last state. *)
Lemma run_pollState_report_calls (w : world) (target token : jsstring) (vs : vscode)
    (ed : TextEditor) (cur : State) (g : global) :
  is_Some (updateStateAbortController g) →
  ∃ g' before req tail,
    run w (Part000.pollState_report dirname target token vs ed cur) g
      = (g', inl tt, before ++ CallFetch req :: tail)
    ∧ Forall (fun c => is_git_remote c = true) before
    ∧ Forall (fun c => is_fetch c = false ∧ is_ignore_check c = false) tail
    ∧ prevState g' = cur
    ∧ ignoredFiles g' = ignoredFiles g
    ∧ controllers g' = controllers g
    ∧ updateStateAbortController g' = updateStateAbortController g.
Proof.
  intros [signal Hc]. unfold Part000.pollState_report.
  rewrite run_bind, (run_current_signal _ _ _ Hc), run_bind.
  destruct (run_findGitHubURL_calls w (workspace_name vs) (doc_fileName ed) signal g)
    as (g1 & repository & calls1 & -> & (Hi1 & Hp1 & Hc1 & Hl1) & Hcalls).
  rewrite run_bind, run_modify, run_bind, run_appendLine.
  match goal with |- context [run w (send ?t ?k ?b) ?g0] =>
    destruct (run_send_calls w t k b signal g0)
      as (g2 & tail & -> & (Hi2 & Hp2 & Hc2 & Hl2) & _ & Htail)
  end; [unfold set_chan, set_prevState; cbn; congruence|].
  unfold set_chan, set_prevState in *; cbn in *.
  do 4 eexists. split; [done|]. repeat split; try done; congruence.
Qed.

(** A tick of [part_000] run to its end, gate by gate. *)
Lemma run_Part000_pollState (w : world) (target token : jsstring) (vs : vscode)
    (cur : State) (g : global) :
  capture vs = inl cur →
  ∃ ed,
    run w (Part000.pollState dirname target token vs) g =
      if shallowEqual (State_obj (prevState g)) (State_obj cur) then (g, inl tt, [])
      else if bool_decide (fileName cur ∈ ignoredFiles g) then
        (set_chan (fun lines =>
                     lines ++ [fileName cur ++ str " is ignored (looked up from cache)"])
                  (set_chan (fun lines => lines ++ [str "not equal"]) g),
         inl tt, [])
      else if negb (strict_eq (VStr (fileName (prevState g))) (VStr (fileName cur))) then
        let check := check_ignore_cmd (fileName cur) in
        let r := on_exec w check (dirname (fileName cur)) (length (controllers g)) in
        let '(g2, res, calls) :=
          run w (if strict_eq (isIgnored_after r) VUndefined
                    || strict_eq (isIgnored_after r) (VBool true)
                 then
                   appendLine (fileName cur ++ str " is ignored");;
                   modify (set_ignoredFiles (fun files => {[fileName cur]} ∪ files))
                 else Part000.pollState_report dirname target token vs ed cur)
              (passed_gates g) in
        (g2, res, CallExec check (dirname (fileName cur)) (length (controllers g)) :: calls)
      else run w (Part000.pollState_report dirname target token vs ed cur)
               (passed_gates g).
Proof.
  intros Hcap.
  destruct (Part000_first_segment dirname target token vs cur g Hcap)
    as (ed & _ & Hrun).
  exists ed. rewrite run_run_sync, Hrun.
  destruct (shallowEqual _ _); [done|].
  destruct (bool_decide _); [done|].
  destruct (negb _); [done|]. by rewrite <- run_run_sync.
Qed.

(** A tick of [extension.js] run to its end, gate by gate. *)
Lemma run_ExtensionJs_pollState (w : world) (target token : jsstring) (vs : vscode)
    (cur : State) (g : global) :
  capture vs = inl cur →
  run w (ExtensionJs.pollState dirname target token vs) g =
    if shallowEqual (State_obj (prevState g)) (State_obj cur) then (g, inl tt, [])
    else if bool_decide (fileName cur ∈ ignoredFiles g) then
      (set_chan (fun lines =>
                   lines ++ [fileName cur ++ str " is ignored (looked up from cache)"])
                (accepted cur g),
       inl tt, [])
    else if negb (strict_eq (VStr (fileName (prevState g))) (VStr (fileName cur))) then
      let check := check_ignore_cmd (fileName cur) in
      let r := on_exec w check (dirname (fileName cur)) (length (controllers g)) in
      let '(g2, res, calls) :=
        run w (if strict_eq (isIgnored_after r) VUndefined
                  || strict_eq (isIgnored_after r) (VBool true)
               then
                 appendLine (fileName cur ++ str " is ignored");;
                 modify (set_ignoredFiles (fun files => {[fileName cur]} ∪ files))
               else send target token (JSON_stringify (State_obj cur)))
            (accepted cur g) in
      (g2, res, CallExec check (dirname (fileName cur)) (length (controllers g)) :: calls)
    else run w (send target token (JSON_stringify (State_obj cur))) (accepted cur g).
Proof.
  intros Hcap.
  pose proof (ExtensionJs_first_segment dirname target token vs cur g Hcap) as Hrun.
  rewrite run_run_sync, Hrun.
  destruct (shallowEqual _ _); [done|].
  destruct (bool_decide _); [done|].
  destruct (negb _); [done|]. by rewrite <- run_run_sync.
Qed.

(** What a tick run to its end has done. *)
Lemma Part000_tick_summary (w : world) (target token : jsstring) (vs : vscode)
    (cur : State) (g : global) :
  capture vs = inl cur →
  ∃ g' calls,
    run w (Part000.pollState dirname target token vs) g = (g', inl tt, calls)
    ∧ (length (filter (fun c => is_fetch c = true) calls) ≤ 1)%nat
    ∧ (Exists (fun c => is_fetch c = true) calls → prevState g' = cur)
    ∧ (fileName (prevState g) = fileName cur →
       Forall (fun c => is_ignore_check c = false) calls).
Proof.
  intros Hcap. destruct (run_Part000_pollState w target token vs cur g Hcap)
    as (ed & ->).
  destruct (passed_gates_fields g) as (_ & _ & _ & Hc & _).
  assert (Hsome : is_Some (updateStateAbortController (passed_gates g))) by eauto.
  destruct (run_pollState_report_calls w target token vs ed cur (passed_gates g) Hsome)
    as (g' & before & req & tail & Hrun & Hbefore & Htail & Hprev & _).
  destruct (report_calls before tail req Hbefore Htail) as [Hone Hnocheck].
  destruct (shallowEqual _ _).
  { do 2 eexists. split; [done|]. cbn. repeat split; auto. by intros ?%Exists_nil. }
  destruct (bool_decide _).
  { do 2 eexists. split; [done|]. cbn. repeat split; auto. by intros ?%Exists_nil. }
  destruct (negb _) eqn:Hdid.
  - apply didChangeFile_true in Hdid. cbv zeta.
    destruct (strict_eq _ _ || strict_eq _ _).
    + cbn. do 2 eexists. split; [done|]. repeat split; [| |done].
      * rewrite filter_cons_False by done. cbn. lia.
      * intros [Hx|Hx%Exists_nil]%Exists_cons; done.
    + rewrite Hrun. do 2 eexists. split; [done|]. repeat split.
      * rewrite filter_cons_False by done. rewrite Hone. cbn. lia.
      * done.
      * done.
  - rewrite Hrun. do 2 eexists. split; [done|]. repeat split; [|done|done].
    rewrite Hone. cbn. lia.
Qed.

Lemma ExtensionJs_tick_summary (w : world) (target token : jsstring) (vs : vscode)
    (cur : State) (g : global) :
  capture vs = inl cur →
  ∃ g' calls,
    run w (ExtensionJs.pollState dirname target token vs) g = (g', inl tt, calls)
    ∧ (length (filter (fun c => is_fetch c = true) calls) ≤ 1)%nat
    ∧ (changed (prevState g) cur = true → prevState g' = cur)
    ∧ (fileName (prevState g) = fileName cur →
       Forall (fun c => is_ignore_check c = false) calls).
Proof.
  intros Hcap. rewrite (run_ExtensionJs_pollState w target token vs cur g Hcap).
  destruct (accepted_fields cur g) as (_ & _ & Hp & Hc & _).
  destruct (run_send_calls w target token (JSON_stringify (State_obj cur))
              (length (controllers g)) (accepted cur g) Hc)
    as (g' & tail & Hrun & (_ & Hprev & _) & _ & Htail).
  destruct (report_calls [] tail
              (mkRequest target (str "POST") (str "Bearer " ++ token)
                         (str "application/json") (JSON_stringify (State_obj cur))
                         (length (controllers g)))
              ltac:(constructor) Htail) as [Hone Hnocheck].
  cbn [app] in Hone, Hnocheck.
  unfold changed.
  destruct (shallowEqual _ _).
  { do 2 eexists. split; [done|]. cbn. repeat split; auto. done. }
  destruct (bool_decide _).
  { do 2 eexists. split; [done|]. cbn. repeat split; auto. }
  destruct (negb _) eqn:Hdid.
  - apply didChangeFile_true in Hdid. cbv zeta.
    destruct (strict_eq _ _ || strict_eq _ _).
    + cbn. do 2 eexists. split; [done|]. repeat split; [| |done].
      * rewrite filter_cons_False by done. cbn. lia.
      * intros _. unfold set_ignoredFiles, set_chan; cbn. done.
    + rewrite Hrun. do 2 eexists. split; [done|]. repeat split.
      * rewrite filter_cons_False by done. rewrite Hone. cbn. lia.
      * intros _. congruence.
      * done.
  - rewrite Hrun. do 2 eexists. split; [done|]. repeat split; [|congruence|done].
    rewrite Hone. cbn. lia.
Qed.

(** X16: in both revisions a tick that has an editor and a line count of
    zero or more ends normally in every world: a failing command, a
    rejected request or an error status is never thrown on; and it makes at
    most one [fetch] call. *)
Theorem tick_completes (w : world) (target token : jsstring) (vs : vscode)
    (cur : State) (g : global) :
  capture vs = inl cur →
  (∃ g' calls,
     run w (Part000.pollState dirname target token vs) g = (g', inl tt, calls)
     ∧ (length (filter (fun c => is_fetch c = true) calls) ≤ 1)%nat)
  ∧ (∃ g' calls,
       run w (ExtensionJs.pollState dirname target token vs) g = (g', inl tt, calls)
       ∧ (length (filter (fun c => is_fetch c = true) calls) ≤ 1)%nat).
Proof.
  intros Hcap. split.
  - destruct (Part000_tick_summary w target token vs cur g Hcap)
      as (g' & calls & Hrun & Hone & _). by eauto.
  - destruct (ExtensionJs_tick_summary w target token vs cur g Hcap)
      as (g' & calls & Hrun & Hone & _). by eauto.
Qed.

(** X17: in both revisions a tick on the file of the last state makes no
    ignore check, whatever else of the state has changed. *)
Theorem no_ignore_check_on_same_file (w : world) (target token : jsstring)
    (vs : vscode) (cur : State) (g : global) :
  capture vs = inl cur →
  fileName (prevState g) = fileName cur →
  Forall (fun c => is_ignore_check c = false)
         (run w (Part000.pollState dirname target token vs) g).2
  ∧ Forall (fun c => is_ignore_check c = false)
           (run w (ExtensionJs.pollState dirname target token vs) g).2.
Proof.
  intros Hcap Hfile. split.
  - destruct (Part000_tick_summary w target token vs cur g Hcap)
      as (g' & calls & -> & _ & _ & Hcheck). by apply Hcheck.
  - destruct (ExtensionJs_tick_summary w target token vs cur g Hcap)
      as (g' & calls & -> & _ & _ & Hcheck). by apply Hcheck.
Qed.

(** X18: a report of [part_000] is not sent again.  Once a tick has made
    its [fetch] call, whatever the answer to it (success, error status or
    rejection), a tick that takes the same snapshot on the variables it
    left, in any world, makes no call and changes no variable. *)
Theorem report_not_resent (w w' : world) (target token : jsstring) (vs : vscode)
    (cur : State) (g g' : global) (calls : list call) :
  capture vs = inl cur →
  run w (Part000.pollState dirname target token vs) g = (g', inl tt, calls) →
  Exists (fun c => is_fetch c = true) calls →
  run w' (Part000.pollState dirname target token vs) g' = (g', inl tt, []).
Proof.
  intros Hcap Hrun Hfetch.
  destruct (Part000_tick_summary w target token vs cur g Hcap)
    as (g1 & calls1 & Hrun1 & _ & Hprev & _).
  rewrite Hrun in Hrun1. injection Hrun1 as <- <-.
  destruct (run_Part000_pollState w' target token vs cur g' Hcap) as (ed & ->).
  by rewrite (Hprev Hfetch), (proj2 (shallowEqual_State cur cur) eq_refl).
Qed.

(** X19: a tick of [part_000] on a file in the set of ignored files makes
    no call and writes two lines to the log; it neither stores its snapshot
    nor touches a controller or a cache, so the same tick is a change again
    the next time. *)
Theorem Part000_tick_on_ignored_file (w : world) (target token : jsstring)
    (vs : vscode) (cur : State) (g : global) :
  capture vs = inl cur →
  changed (prevState g) cur = true →
  fileName cur ∈ ignoredFiles g →
  ∃ g',
    run w (Part000.pollState dirname target token vs) g = (g', inl tt, [])
    ∧ chan g' = chan g ++ [str "not equal";
                           fileName cur ++ str " is ignored (looked up from cache)"]
    ∧ prevState g' = prevState g
    ∧ ignoredFiles g' = ignoredFiles g
    ∧ knownGitHubs g' = knownGitHubs g
    ∧ updateStateAbortController g' = updateStateAbortController g
    ∧ controllers g' = controllers g
    ∧ changed (prevState g') cur = true.
Proof.
  intros Hcap Hch Hin.
  destruct (run_Part000_pollState w target token vs cur g Hcap) as (ed & ->).
  unfold changed in Hch. apply negb_true_iff in Hch as Hne. rewrite Hne.
  rewrite bool_decide_eq_true_2 by done.
  eexists. split; [done|]. unfold set_chan; cbn.
  rewrite <- app_assoc. by repeat split.
Qed.

(** X20: a tick of [extension.js] on a file in the set of ignored files
    makes no call either, but before it looks the file up it has stored its
    snapshot as the last state, aborted the controller of the variable and
    installed a new one. *)
Theorem ExtensionJs_tick_on_ignored_file (w : world) (target token : jsstring)
    (vs : vscode) (cur : State) (g : global) :
  capture vs = inl cur →
  changed (prevState g) cur = true →
  fileName cur ∈ ignoredFiles g →
  ∃ g',
    run w (ExtensionJs.pollState dirname target token vs) g = (g', inl tt, [])
    ∧ prevState g' = cur
    ∧ updateStateAbortController g' = Some (length (controllers g))
    ∧ controllers g'
      = match updateStateAbortController g with
        | Some i => <[i:=true]> (controllers g)
        | None => controllers g
        end ++ [false]
    ∧ ignoredFiles g' = ignoredFiles g.
Proof.
  intros Hcap Hch Hin.
  rewrite (run_ExtensionJs_pollState w target token vs cur g Hcap).
  unfold changed in Hch. apply negb_true_iff in Hch as Hne. rewrite Hne.
  rewrite bool_decide_eq_true_2 by done.
  destruct (accepted_fields cur g) as (Hi & _ & Hp & Hc & Hl).
  rewrite controllers_abort_current in Hl.
  eexists. split; [done|]. unfold set_chan; cbn. by repeat split.
Qed.

(** X21: in both revisions a tick whose snapshot equals the last state
    makes no call and changes no variable, not even the log. *)
Theorem tick_on_unchanged_state (w : world) (target token : jsstring) (vs : vscode)
    (g : global) :
  capture vs = inl (prevState g) →
  run w (Part000.pollState dirname target token vs) g = (g, inl tt, [])
  ∧ run w (ExtensionJs.pollState dirname target token vs) g = (g, inl tt, []).
Proof.
  intros Hcap. split.
  - destruct (run_Part000_pollState w target token vs _ g Hcap) as (ed & ->).
    by rewrite (proj2 (shallowEqual_State _ _) eq_refl).
  - rewrite (run_ExtensionJs_pollState w target token vs _ g Hcap).
    by rewrite (proj2 (shallowEqual_State _ _) eq_refl).
Qed.

(** X22: in both revisions a tick that cannot take its snapshot, because
    there is no active editor or because the line count is negative, throws
    at once: it makes no call and changes no variable. *)
Theorem tick_without_snapshot (w : world) (target token : jsstring) (vs : vscode)
    (g : global) (e : js_error) :
  capture vs = inr e →
  run w (Part000.pollState dirname target token vs) g = (g, inr e, [])
  ∧ run w (ExtensionJs.pollState dirname target token vs) g = (g, inr e, []).
Proof.
  unfold capture, Part000.pollState, ExtensionJs.pollState.
  destruct (activeTextEditor vs) as [ed|]; [|by intros [= <-]].
  destruct (getViewRange _ _); [done|by intros [= <-]].
Qed.

Lemma Part000_no_call_on_ignored (w : world) (target token : jsstring)
    (vs : vscode) (cur : State) (g : global) :
  capture vs = inl cur →
  fileName cur ∈ ignoredFiles g →
  (run w (Part000.pollState dirname target token vs) g).2 = []
  ∧ fileName cur ∈ ignoredFiles (run w (Part000.pollState dirname target token vs) g).1.1.
Proof.
  intros Hcap Hin.
  destruct (run_Part000_pollState w target token vs cur g Hcap) as (ed & ->).
  destruct (shallowEqual _ _); [done|].
  by rewrite bool_decide_eq_true_2 by done.
Qed.

Lemma ExtensionJs_no_call_on_ignored (w : world) (target token : jsstring)
    (vs : vscode) (cur : State) (g : global) :
  capture vs = inl cur →
  fileName cur ∈ ignoredFiles g →
  (run w (ExtensionJs.pollState dirname target token vs) g).2 = []
  ∧ fileName cur
    ∈ ignoredFiles (run w (ExtensionJs.pollState dirname target token vs) g).1.1.
Proof.
  intros Hcap Hin.
  rewrite (run_ExtensionJs_pollState w target token vs cur g Hcap).
  destruct (shallowEqual _ _); [done|].
  rewrite bool_decide_eq_true_2 by done. cbn. split; [done|].
  unfold set_chan; cbn. by rewrite (proj1 (accepted_fields cur g)).
Qed.

(** X23: in both revisions a tick on a file in the set of ignored files
    makes no external call, whatever its snapshot and the last state, and
    the file is still in the set when it ends. *)
Theorem tick_on_ignored_file_calls_nothing (w : world) (target token : jsstring)
    (vs : vscode) (cur : State) (g : global) :
  capture vs = inl cur →
  fileName cur ∈ ignoredFiles g →
  ((run w (Part000.pollState dirname target token vs) g).2 = []
   ∧ fileName cur ∈ ignoredFiles (run w (Part000.pollState dirname target token vs) g).1.1)
  ∧ ((run w (ExtensionJs.pollState dirname target token vs) g).2 = []
     ∧ fileName cur
       ∈ ignoredFiles (run w (ExtensionJs.pollState dirname target token vs) g).1.1).
Proof.
  intros Hcap Hin. split.
  - by apply Part000_no_call_on_ignored.
  - by apply ExtensionJs_no_call_on_ignored.
Qed.

(** X24: the first tick of [part_000] on a file that the ignore check does
    not answer with exit code 1 makes this one call and no report, and
    leaves the file in the set of ignored files; every later tick on the
    file, in any world and wherever the cursor is, makes no call at all. *)
Theorem ignored_file_checked_once (w : world) (target token : jsstring)
    (vs : vscode) (cur : State) (g : global) :
  capture vs = inl cur →
  fileName (prevState g) ≠ fileName cur →
  fileName cur ∉ ignoredFiles g →
  (∀ err, on_exec w (check_ignore_cmd (fileName cur)) (dirname (fileName cur))
                  (length (controllers g)) = ExecErr err → code err ≠ VNum 1) →
  ∃ g',
    run w (Part000.pollState dirname target token vs) g
    = (g', inl tt,
       [CallExec (check_ignore_cmd (fileName cur)) (dirname (fileName cur))
                 (length (controllers g))])
    ∧ fileName cur ∈ ignoredFiles g'
    ∧ ∀ w' target' token' vs' cur',
        capture vs' = inl cur' → fileName cur' = fileName cur →
        (run w' (Part000.pollState dirname target' token' vs') g').2 = [].
Proof.
  intros Hcap Hfile Hfresh Hcode.
  destruct (run_Part000_pollState w target token vs cur g Hcap) as (ed & ->).
  destruct (changed_file _ _ Hfile) as [Hne Hdid].
  rewrite Hne, Hdid, bool_decide_eq_false_2 by done. cbv zeta.
  assert (Hverdict : ∀ r,
    (∀ err, r = ExecErr err → code err ≠ VNum 1) →
    strict_eq (isIgnored_after r) VUndefined
    || strict_eq (isIgnored_after r) (VBool true) = true).
  { intros [stdout|err] Hr; [done|]. apply isIgnored_other. by apply Hr. }
  rewrite (Hverdict _ Hcode). cbn.
  eexists. split; [done|]. unfold set_ignoredFiles, set_chan; cbn.
  split; [set_solver|].
  intros w' target' token' vs' cur' Hcap' Hsame.
  apply (Part000_no_call_on_ignored w' target' token' vs' cur' _ Hcap').
  cbn. rewrite Hsame. set_solver.
Qed.


End Ticks.

(** ** The two commands *)

Lemma trimStart_nil (s : jsstring) :
  trimStart s = [] ↔ Forall (fun c => isWhiteSpace c = true) s.
Proof.
  induction s as [|c s IH]; cbn [trimStart]; [done|].
  destruct (isWhiteSpace c) eqn:Hc.
  - rewrite IH. split; [by constructor|by intros [_ ?]%Forall_cons].
  - split; [done|]. intros [Hc' _]%Forall_cons. congruence.
Qed.

Lemma trimStart_blank (s : jsstring) :
  Forall (fun c => isWhiteSpace c = true) (trimStart s) → trimStart s = [].
Proof.
  induction s as [|c s IH]; cbn [trimStart]; [done|].
  destruct (isWhiteSpace c) eqn:Hc; [done|].
  intros [Hc' _]%Forall_cons. congruence.
Qed.

(** [trim] gives the empty string exactly on the strings of white space. *)
Lemma trim_nil (s : jsstring) :
  trim s = [] ↔ Forall (fun c => isWhiteSpace c = true) s.
Proof.
  unfold trim. split.
  - intros H. apply trimStart_nil.
    apply (f_equal (@rev N)) in H. rewrite rev_involutive in H. cbn in H.
    apply trimStart_nil in H. apply Forall_rev in H. rewrite rev_involutive in H.
    by apply trimStart_blank.
  - intros H%trimStart_nil. by rewrite H.
Qed.

Lemma blank_or_not (s : jsstring) :
  Forall (fun c => isWhiteSpace c = true) s ∨ not_blank s.
Proof.
  unfold not_blank. induction s as [|c s [IH|IH]]; [by left| |].
  - destruct (isWhiteSpace c) eqn:Hc; [left|right]; by constructor.
  - right. by constructor 2.
Qed.

Lemma trim_not_blank (s : jsstring) :
  strict_eq (VStr (trim s)) (VStr []) = false ↔ not_blank s.
Proof.
  unfold not_blank. rewrite <- not_true_iff_false, strict_eq_true.
  split.
  - intros Hne. destruct (blank_or_not s) as [HF|HE]; [|done].
    destruct Hne. f_equal. by apply trim_nil.
  - intros HE [= Hnil%trim_nil].
    apply Exists_exists in HE as (c & Hin & Hc).
    rewrite Forall_forall in Hnil. specialize (Hnil c Hin). congruence.
Qed.

(** X25: a command stores the value it is given exactly when the input box
    was not cancelled and the value holds a character that is not white
    space; it stores the value as it was typed, white space around it
    included, the token under the secret [token] and the target under the
    key [target]. *)
Theorem commands_store (input selection : option jsstring) (key value : jsstring) :
  (In (SecretsStore key value) (handleSetTokenCmd input selection)
   ↔ key = str "token" ∧ input = Some value ∧ not_blank value)
  ∧ (In (GlobalStateUpdate key value) (handleSetTargetCmd input selection)
     ↔ key = str "target" ∧ input = Some value ∧ not_blank value).
Proof.
  unfold handleSetTokenCmd, handleSetTargetCmd, offer_reload.
  split; (destruct input as [typed|]; [|cbn; split; [intros [|[|[]]]|intros (_ & ? & _)]; done]);
    destruct (strict_eq (VStr (trim typed)) (VStr [])) eqn:Htrim.
  - cbn. split; [intros [|[|[]]]; done|]. intros (_ & [= ->] & Hv%trim_not_blank).
    congruence.
  - apply trim_not_blank in Htrim. cbn. split.
    + intros [|[[= <- <-]|[|H]]]; try done.
      by destruct (strict_eq _ _); [destruct H as [|[]]|].
    + intros (-> & [= ->] & _). auto.
  - cbn. split; [intros [|[|[]]]; done|]. intros (_ & [= ->] & Hv%trim_not_blank).
    congruence.
  - apply trim_not_blank in Htrim. cbn. split.
    + intros [|[[= <- <-]|[|H]]]; try done.
      by destruct (strict_eq _ _); [destruct H as [|[]]|].
    + intros (-> & [= ->] & _). auto.
Qed.

(** X26: a command reloads the window exactly when it has stored a value
    and the button [Reload Window] of its message was chosen; a command
    that stores nothing shows its error message and nothing after it. *)
Theorem commands_reload (input selection : option jsstring) (command : jsstring) :
  (In (ExecuteCommand command) (handleSetTokenCmd input selection)
   ↔ command = str "workbench.action.reloadWindow"
     ∧ selection = Some (str "Reload Window")
     ∧ ∃ value, input = Some value ∧ not_blank value)
  ∧ (In (ExecuteCommand command) (handleSetTargetCmd input selection)
     ↔ command = str "workbench.action.reloadWindow"
       ∧ selection = Some (str "Reload Window")
       ∧ ∃ value, input = Some value ∧ not_blank value).
Proof.
  assert (Hsel : ∀ message,
    In (ExecuteCommand command) (offer_reload message selection)
    ↔ command = str "workbench.action.reloadWindow"
      ∧ selection = Some (str "Reload Window")).
  { intros message. unfold offer_reload.
    destruct (strict_eq _ (VStr (str "Reload Window"))) eqn:Hs.
    - apply strict_eq_true in Hs. destruct selection as [item|]; [|done].
      injection Hs as ->. cbn.
      split; [intros [|[[= <-]|[]]]; done|intros [-> _]; right; by left].
    - split; [intros [|[]]; done|]. intros [_ ->].
      by rewrite strict_eq_refl in Hs. }
  unfold handleSetTokenCmd, handleSetTargetCmd.
  split; (destruct input as [typed|];
          [|cbn; split; [intros [|[|[]]]; done|intros (_ & _ & ? & ? & _); done]]);
    destruct (strict_eq (VStr (trim typed)) (VStr [])) eqn:Htrim.
  - cbn. split; [intros [|[|[]]]; done|].
    intros (_ & _ & value & [= <-] & Hv%trim_not_blank). congruence.
  - apply trim_not_blank in Htrim. split.
    + intros [|[|H]]; try done. apply Hsel in H as [-> ->]. eauto.
    + intros (-> & -> & _). do 2 right. by apply Hsel.
  - cbn. split; [intros [|[|[]]]; done|].
    intros (_ & _ & value & [= <-] & Hv%trim_not_blank). congruence.
  - apply trim_not_blank in Htrim. split.
    + intros [|[|H]]; try done. apply Hsel in H as [-> ->]. eauto.
    + intros (-> & -> & _). do 2 right. by apply Hsel.
Qed.

(** ** The last state in [part_000] *)

(** X29: a tick of [part_000] leaves the last state as it was in its first
    segment unless that segment makes the [fetch] call: a tick that waits
    for the ignore check or for the resolver has not stored its snapshot
    yet. *)
Theorem Part000_prevState_first_segment (dirname : jsstring → jsstring)
    (target token : jsstring) (vs : vscode) (cur : State) (g g1 : global)
    (st : status unit) :
  capture vs = inl cur →
  run_sync (Part000.pollState dirname target token vs) g = (g1, st) →
  (∀ req k, st ≠ AwaitFetch req k) →
  prevState g1 = prevState g.
Proof.
  intros Hcap Hrun Hst.
  destruct (Part000_first_segment dirname target token vs cur g Hcap)
    as (ed & _ & Hseg).
  rewrite Hseg in Hrun. clear Hseg.
  destruct (passed_gates_fields g) as (_ & _ & Hp & Hc & _).
  destruct (shallowEqual _ _); [by injection Hrun as <- _|].
  destruct (bool_decide _); [by injection Hrun as <- _|].
  destruct (negb _); [by injection Hrun as <- _|].
  unfold Part000.pollState_report in Hrun.
  rewrite run_sync_bind in Hrun. cbn in Hrun. rewrite Hc in Hrun. cbn in Hrun.
  rewrite run_sync_bind in Hrun. unfold Part000.findGitHubURL in Hrun.
  cbn in Hrun. destruct (knownGitHubs (passed_gates g) !! workspace_name vs).
  - cbn in Hrun. unfold send in Hrun. cbn in Hrun.
    unfold set_chan, set_prevState in Hrun; cbn in Hrun. rewrite Hc in Hrun.
    cbn in Hrun. injection Hrun as _ <-. by edestruct Hst.
  - cbn in Hrun. by injection Hrun as <- _.
Qed.

(** ** The last state in [extension.js] *)

(** X28: a tick of [extension.js] stores its snapshot as the last state in
    its first segment, as soon as it has passed the gate of the unchanged
    state: before the lookup in the set of ignored files, before the ignore
    check and before the request. *)
Theorem ExtensionJs_prevState_first_segment (dirname : jsstring → jsstring)
    (target token : jsstring) (vs : vscode) (cur : State) (g : global) :
  capture vs = inl cur →
  changed (prevState g) cur = true →
  ∃ g1 st,
    run_sync (ExtensionJs.pollState dirname target token vs) g = (g1, st)
    ∧ prevState g1 = cur.
Proof.
  intros Hcap Hch.
  rewrite (ExtensionJs_first_segment dirname target token vs cur g Hcap).
  unfold changed in Hch. apply negb_true_iff in Hch. rewrite Hch.
  destruct (accepted_fields cur g) as (_ & _ & Hp & Hc & _).
  destruct (bool_decide _); [by do 2 eexists|].
  destruct (negb _); [by do 2 eexists|].
  unfold send. cbn. rewrite Hc. cbn. by do 2 eexists.
Qed.

(** ** The further theorems at sample inputs *)

Lemma findGitHubURL_cached_witness :
  run gitlab_world
      (Part000.findGitHubURL sample_dirname (Some (str "proj")) (str "C:\proj\a.js") 1)
      cached_session
  = (set_chan (fun lines =>
                 lines ++ [str "https://github.com/acme/widgets"
                             ++ str " (looked up from cache)"])
              cached_session,
     inl (Some (str "https://github.com/acme/widgets")), []).
Proof.
  apply (findGitHubURL_cached sample_dirname gitlab_world (Some (str "proj"))
           (str "C:\proj\a.js") (str "https://github.com/acme/widgets") 1
           cached_session).
  vm_compute. reflexivity.
Defined.

Lemma findGitHubURL_first_match_witness :
  ∃ g1,
    run two_remotes_world
        (Part000.findGitHubURL sample_dirname (Some (str "proj")) (str "C:\proj\a.js") 0)
        initial
    = (g1, inl (Some (str "https://github.com/acme/widgets")),
       CallExec (str "git remote") (sample_dirname (str "C:\proj\a.js")) 0
         :: map (get_url_call (sample_dirname (str "C:\proj\a.js")) 0)
                ([str "origin"] ++ [str "upstream"]))
    ∧ knownGitHubs g1
      = <[Some (str "proj") := str "https://github.com/acme/widgets"]> (knownGitHubs initial).
Proof.
  apply (findGitHubURL_first_match sample_dirname two_remotes_world (Some (str "proj"))
           (str "C:\proj\a.js") 0 initial [str "origin"] [] (str "upstream")
           (str "https://github.com/acme/widgets")); vm_compute; reflexivity.
Defined.

Lemma findGitHubURL_memoized_witness :
  knownGitHubs
    (run two_remotes_world
         (Part000.findGitHubURL sample_dirname (Some (str "proj")) (str "C:\proj\a.js") 0)
         initial).1.1 !! Some (str "proj")
  = Some (str "https://github.com/acme/widgets")
  ∧ ∀ w' file' signal',
      (run w' (Part000.findGitHubURL sample_dirname (Some (str "proj")) file' signal')
           (run two_remotes_world
                (Part000.findGitHubURL sample_dirname (Some (str "proj"))
                                       (str "C:\proj\a.js") 0)
                initial).1.1).1.2
      = inl (Some (str "https://github.com/acme/widgets"))
      ∧ (run w' (Part000.findGitHubURL sample_dirname (Some (str "proj")) file' signal')
             (run two_remotes_world
                  (Part000.findGitHubURL sample_dirname (Some (str "proj"))
                                         (str "C:\proj\a.js") 0)
                  initial).1.1).2
        = [].
Proof.
  apply (findGitHubURL_memoized sample_dirname two_remotes_world (Some (str "proj"))
           (str "C:\proj\a.js") 0 initial _ _
           (run two_remotes_world
                (Part000.findGitHubURL sample_dirname (Some (str "proj"))
                                       (str "C:\proj\a.js") 0)
                initial).2).
  vm_compute. reflexivity.
Defined.

Lemma findGitHubURL_enumeration_fails_witness :
  run failing_world
      (Part000.findGitHubURL sample_dirname (Some (str "proj")) (str "C:\proj\a.js") 0)
      initial
  = (set_chan (fun lines =>
                 lines ++ [str "Get Git remotes: " ++ str "Error: Command failed"])
              initial,
     inl None,
     [CallExec (str "git remote") (sample_dirname (str "C:\proj\a.js")) 0]).
Proof.
  apply (findGitHubURL_enumeration_fails sample_dirname failing_world (Some (str "proj"))
           (str "C:\proj\a.js") 0 initial
           (mkExecError (VNum 128) (str "Error: Command failed"))); reflexivity.
Defined.

(** The first segment of the sample tick on [cached_session]. *)
Lemma sample_tick_segment :
  ∃ g',
    segment (Part000.pollState sample_dirname (str "http://localhost/report")
                               (str "secret") sample_vscode)
            cached_session cached_session g'.
Proof. eexists. eapply segment_first. vm_compute. reflexivity. Defined.

Lemma tick_segments_grow_witness :
  ∃ g',
    segment (Part000.pollState sample_dirname (str "http://localhost/report")
                               (str "secret") sample_vscode)
            cached_session cached_session g'
    ∧ grows sample_State cached_session g'.
Proof.
  destruct sample_tick_segment as (g' & Hs). exists g'. split; [exact Hs|].
  apply (proj1 (tick_segments_grow sample_dirname (str "http://localhost/report")
                  (str "secret") sample_vscode sample_State cached_session
                  cached_session g' eq_refl) Hs).
Defined.

Lemma request_of_a_tick_witness :
  ∃ req g',
    sends (Part000.pollState sample_dirname (str "http://localhost/report")
                             (str "secret") sample_vscode)
          cached_session req g'
    ∧ req_url req = str "http://localhost/report"
    ∧ req_method req = str "POST"
    ∧ req_authorization req = str "Bearer " ++ str "secret"
    ∧ req_contentType req = str "application/json"
    ∧ updateStateAbortController g' = Some (req_signal req).
Proof.
  destruct sample_tick_sends as (req & g' & Hs). exists req, g'. split; [exact Hs|].
  apply (request_of_a_tick sample_dirname (str "http://localhost/report")
           (str "secret") sample_vscode cached_session req g').
  left. exact Hs.
Defined.

(** The request of the tick of [extension.js] with no folder open. *)
Lemma no_folder_ExtensionJs_tick_sends :
  ∃ req g',
    sends (ExtensionJs.pollState sample_dirname (str "http://localhost/report")
                                 (str "secret") no_folder)
          cached_session req g'.
Proof. do 2 eexists. eapply sends_now. vm_compute. reflexivity. Defined.

Lemma ExtensionJs_report_body_witness :
  ∃ req g',
    sends (ExtensionJs.pollState sample_dirname (str "http://localhost/report")
                                 (str "secret") no_folder)
          cached_session req g'
    ∧ ∃ cur,
        capture no_folder = inl cur
        ∧ req_body req
          = optional_member "workspace" (workspace cur)
            ++ [ ("fileName"%string, JString (fileName cur));
                 ("language"%string, JString (language cur));
                 ("row"%string, JNumber (row cur));
                 ("col"%string, JNumber (col cur));
                 ("viewChunk"%string, JString (viewChunk cur)) ]
        ∧ json_member (req_body req) "repository" = None.
Proof.
  destruct no_folder_ExtensionJs_tick_sends as (req & g' & Hs).
  exists req, g'. split; [exact Hs|].
  exact (ExtensionJs_report_body sample_dirname _ _ _ _ _ _ Hs).
Defined.

Lemma superseded_tick_reports_witness :
  ∃ g1 k,
    run_sync (Part000.pollState sample_dirname (str "http://localhost/report")
                                (str "secret") sample_vscode) warm_session
    = (g1, AwaitExec (str "git remote") (sample_dirname (fileName sample_State))
                     (length (controllers warm_session)) k)
    ∧ ∀ err g2 newer,
        updateStateAbortController g2 = Some newer →
        ∃ g3 req k',
          run_sync (k (ExecErr err)) g2 = (g3, AwaitFetch req k')
          ∧ req_signal req = newer
          ∧ prevState g3 = sample_State
          ∧ json_member (req_body req) "repository" = None.
Proof.
  apply (superseded_tick_reports sample_dirname (str "http://localhost/report")
           (str "secret") sample_vscode sample_State warm_session).
  - reflexivity.
  - vm_compute. reflexivity.
  - reflexivity.
  - apply not_elem_of_empty.
  - reflexivity.
Defined.

Lemma tick_completes_witness :
  (∃ g' calls,
     run two_remotes_world
         (Part000.pollState sample_dirname (str "http://localhost/report")
                            (str "secret") sample_vscode) initial
     = (g', inl tt, calls)
     ∧ (length (filter (fun c => is_fetch c = true) calls) ≤ 1)%nat)
  ∧ (∃ g' calls,
       run two_remotes_world
           (ExtensionJs.pollState sample_dirname (str "http://localhost/report")
                                  (str "secret") sample_vscode) initial
       = (g', inl tt, calls)
       ∧ (length (filter (fun c => is_fetch c = true) calls) ≤ 1)%nat).
Proof.
  apply (tick_completes sample_dirname two_remotes_world (str "http://localhost/report")
           (str "secret") sample_vscode sample_State initial).
  reflexivity.
Defined.

Lemma no_ignore_check_on_same_file_witness :
  Forall (fun c => is_ignore_check c = false)
         (run two_remotes_world
              (Part000.pollState sample_dirname (str "http://localhost/report")
                                 (str "secret") sample_vscode) warm_session).2
  ∧ Forall (fun c => is_ignore_check c = false)
           (run two_remotes_world
                (ExtensionJs.pollState sample_dirname (str "http://localhost/report")
                                       (str "secret") sample_vscode) warm_session).2.
Proof.
  apply (no_ignore_check_on_same_file sample_dirname two_remotes_world
           (str "http://localhost/report") (str "secret") sample_vscode sample_State
           warm_session); reflexivity.
Defined.

Lemma report_not_resent_witness :
  run gitlab_world
      (Part000.pollState sample_dirname (str "http://localhost/report")
                         (str "secret") sample_vscode)
      (run two_remotes_world
           (Part000.pollState sample_dirname (str "http://localhost/report")
                              (str "secret") sample_vscode) warm_session).1.1
  = ((run two_remotes_world
          (Part000.pollState sample_dirname (str "http://localhost/report")
                             (str "secret") sample_vscode) warm_session).1.1,
     inl tt, []).
Proof.
  apply (report_not_resent sample_dirname two_remotes_world gitlab_world
           (str "http://localhost/report") (str "secret") sample_vscode sample_State
           warm_session _
           (run two_remotes_world
                (Part000.pollState sample_dirname (str "http://localhost/report")
                                   (str "secret") sample_vscode) warm_session).2).
  - reflexivity.
  - vm_compute. reflexivity.
  - vm_compute. do 3 apply Exists_cons_tl. apply Exists_cons_hd. reflexivity.
Defined.

Lemma Part000_tick_on_ignored_file_witness :
  ∃ g',
    run gitlab_world
        (Part000.pollState sample_dirname (str "http://localhost/report")
                           (str "secret") sample_vscode) ignoring_session
    = (g', inl tt, [])
    ∧ chan g' = chan ignoring_session
                ++ [str "not equal";
                    fileName sample_State ++ str " is ignored (looked up from cache)"]
    ∧ prevState g' = prevState ignoring_session
    ∧ ignoredFiles g' = ignoredFiles ignoring_session
    ∧ knownGitHubs g' = knownGitHubs ignoring_session
    ∧ updateStateAbortController g' = updateStateAbortController ignoring_session
    ∧ controllers g' = controllers ignoring_session
    ∧ changed (prevState g') sample_State = true.
Proof.
  apply (Part000_tick_on_ignored_file sample_dirname gitlab_world
           (str "http://localhost/report") (str "secret") sample_vscode sample_State
           ignoring_session).
  - reflexivity.
  - vm_compute. reflexivity.
  - vm_compute. reflexivity.
Defined.

Lemma ExtensionJs_tick_on_ignored_file_witness :
  ∃ g',
    run gitlab_world
        (ExtensionJs.pollState sample_dirname (str "http://localhost/report")
                               (str "secret") sample_vscode) ignoring_session
    = (g', inl tt, [])
    ∧ prevState g' = sample_State
    ∧ updateStateAbortController g' = Some (length (controllers ignoring_session))
    ∧ controllers g'
      = match updateStateAbortController ignoring_session with
        | Some i => <[i:=true]> (controllers ignoring_session)
        | None => controllers ignoring_session
        end ++ [false]
    ∧ ignoredFiles g' = ignoredFiles ignoring_session.
Proof.
  apply (ExtensionJs_tick_on_ignored_file sample_dirname gitlab_world
           (str "http://localhost/report") (str "secret") sample_vscode sample_State
           ignoring_session).
  - reflexivity.
  - vm_compute. reflexivity.
  - vm_compute. reflexivity.
Defined.

Lemma tick_on_unchanged_state_witness :
  run gitlab_world
      (Part000.pollState sample_dirname (str "http://localhost/report")
                         (str "secret") sample_vscode) reported_session
  = (reported_session, inl tt, [])
  ∧ run gitlab_world
        (ExtensionJs.pollState sample_dirname (str "http://localhost/report")
                               (str "secret") sample_vscode) reported_session
    = (reported_session, inl tt, []).
Proof.
  apply (tick_on_unchanged_state sample_dirname gitlab_world
           (str "http://localhost/report") (str "secret") sample_vscode
           reported_session).
  reflexivity.
Defined.

Lemma tick_without_snapshot_witness :
  run gitlab_world
      (Part000.pollState sample_dirname (str "http://localhost/report")
                         (str "secret") no_editor) initial
  = (initial, inr TypeError, [])
  ∧ run gitlab_world
        (ExtensionJs.pollState sample_dirname (str "http://localhost/report")
                               (str "secret") no_editor) initial
    = (initial, inr TypeError, []).
Proof.
  apply (tick_without_snapshot sample_dirname gitlab_world
           (str "http://localhost/report") (str "secret") no_editor initial TypeError).
  reflexivity.
Defined.

Lemma tick_on_ignored_file_calls_nothing_witness :
  ((run gitlab_world
        (Part000.pollState sample_dirname (str "http://localhost/report")
                           (str "secret") sample_vscode) ignoring_session).2 = []
   ∧ fileName sample_State
     ∈ ignoredFiles
         (run gitlab_world
              (Part000.pollState sample_dirname (str "http://localhost/report")
                                 (str "secret") sample_vscode) ignoring_session).1.1)
  ∧ ((run gitlab_world
          (ExtensionJs.pollState sample_dirname (str "http://localhost/report")
                                 (str "secret") sample_vscode) ignoring_session).2 = []
     ∧ fileName sample_State
       ∈ ignoredFiles
           (run gitlab_world
                (ExtensionJs.pollState sample_dirname (str "http://localhost/report")
                                       (str "secret") sample_vscode)
                ignoring_session).1.1).
Proof.
  apply (tick_on_ignored_file_calls_nothing sample_dirname gitlab_world
           (str "http://localhost/report") (str "secret") sample_vscode sample_State
           ignoring_session).
  - reflexivity.
  - vm_compute. reflexivity.
Defined.

Lemma ignored_file_checked_once_witness :
  ∃ g',
    run failing_world
        (Part000.pollState sample_dirname (str "http://localhost/report")
                           (str "secret") sample_vscode) initial
    = (g', inl tt,
       [CallExec (check_ignore_cmd (fileName sample_State))
                 (sample_dirname (fileName sample_State))
                 (length (controllers initial))])
    ∧ fileName sample_State ∈ ignoredFiles g'
    ∧ ∀ w' target' token' vs' cur',
        capture vs' = inl cur' → fileName cur' = fileName sample_State →
        (run w' (Part000.pollState sample_dirname target' token' vs') g').2 = [].
Proof.
  apply (ignored_file_checked_once sample_dirname failing_world
           (str "http://localhost/report") (str "secret") sample_vscode sample_State
           initial).
  - reflexivity.
  - vm_compute. discriminate.
  - apply not_elem_of_empty.
  - intros err [= <-]. discriminate.
Defined.

Lemma ExtensionJs_prevState_first_segment_witness :
  ∃ g1 st,
    run_sync (ExtensionJs.pollState sample_dirname (str "http://localhost/report")
                                    (str "secret") sample_vscode) initial
    = (g1, st)
    ∧ prevState g1 = sample_State.
Proof.
  apply (ExtensionJs_prevState_first_segment sample_dirname
           (str "http://localhost/report") (str "secret") sample_vscode sample_State
           initial).
  - reflexivity.
  - vm_compute. reflexivity.
Defined.

Lemma Part000_prevState_first_segment_witness :
  prevState
    (run_sync (Part000.pollState sample_dirname (str "http://localhost/report")
                                 (str "secret") sample_vscode) initial).1
  = prevState initial.
Proof.
  apply (Part000_prevState_first_segment sample_dirname (str "http://localhost/report")
           (str "secret") sample_vscode sample_State initial _
           (run_sync (Part000.pollState sample_dirname (str "http://localhost/report")
                                        (str "secret") sample_vscode) initial).2).
  - reflexivity.
  - apply surjective_pairing.
  - intros req k H.
    change (match AwaitFetch req k with AwaitFetch _ _ => False | _ => True end).
    rewrite <- H. exact I.
Defined.
